(** * NodeMCU RFID attendance terminal: device state machine and API client

    A shallow embedding of [firmware/nodemcu-rfid/state_machine.cpp] and
    [firmware/nodemcu-rfid/api_client.cpp], with the properties of the two
    components stated and proved over it.

    Conventions.
    - [unsigned long] and [uint32_t] are 32 bits wide on the ESP8266; they are
      integers of [Z] reduced modulo [2^32] wherever the source computes.
    - [millis()] is the only clock.  Every operation that reads it takes the
      uptime [t] (in milliseconds, unbounded) and sees [millis t].
    - [Serial] output is diagnostic only and is left out. *)

From Stdlib Require Import ZArith NArith List String Ascii Bool Lia DecimalString.
From Stdlib Require HexadecimalString.
From Stdlib.Strings Require Import Byte.
Import ListNotations.
Local Open Scope string_scope.
Local Open Scope Z_scope.

(** ** Arduino core *)

Module Arduino.

Definition ULONG_MODULUS : Z := 2 ^ 32.

(** Conversion to [unsigned long] / [uint32_t]. *)
Definition to_uint32 (z : Z) : Z := z mod ULONG_MODULUS.

(** [millis()] after [t] milliseconds of uptime: the counter wraps. *)
Definition millis (t : Z) : Z := to_uint32 t.

(** [String(n)] for an integer [n]: its decimal notation. *)
Definition String_of_int (z : Z) : string := NilZero.string_of_int (Z.to_int z).

(** [s.endsWith(suffix)]. *)
Definition endsWith (s suffix : string) : bool :=
  let n := String.length s in
  let k := String.length suffix in
  (k <=? n)%nat && String.eqb (substring (n - k) k s) suffix.

(** [s.length() > 0]. *)
Definition nonempty (s : string) : bool := (0 <? String.length s)%nat.

End Arduino.

(** ** state_machine.h / state_machine.cpp *)

Module StateMachine.
Import Arduino.

Inductive DeviceState : Type :=
| INITIALIZING
| CONNECTING_WIFI
| VALIDATING_API
| IDLE
| PROCESSING_CARD
| PAIRING_MODE
| SHOWING_RESULT
| ERROR_WIFI
| ERROR_API.

Definition DeviceState_eq_dec (a b : DeviceState) : {a = b} + {a <> b}.
Proof. decide equality. Defined.

Definition DeviceState_eqb (a b : DeviceState) : bool :=
  if DeviceState_eq_dec a b then true else false.

Record t : Type := mk {
  currentState : DeviceState;
  previousState : DeviceState;
  pairingStudentName : string;
  stateEnteredAt : Z
}.

(** The constructor [StateMachine::StateMachine()]. *)
Definition new : t :=
  {| currentState := INITIALIZING;
     previousState := INITIALIZING;
     pairingStudentName := "";
     stateEnteredAt := 0 |}.

Definition setState (now : Z) (newState : DeviceState) (sm : t) : t :=
  if negb (DeviceState_eqb newState (currentState sm)) then
    {| currentState := newState;
       previousState := currentState sm;
       pairingStudentName := pairingStudentName sm;
       stateEnteredAt := millis now |}
  else sm.

Definition getState (sm : t) : DeviceState := currentState sm.

Definition getStateName (sm : t) : string :=
  match currentState sm with
  | INITIALIZING => "INITIALIZING"
  | CONNECTING_WIFI => "CONNECTING_WIFI"
  | VALIDATING_API => "VALIDATING_API"
  | IDLE => "IDLE"
  | PROCESSING_CARD => "PROCESSING_CARD"
  | PAIRING_MODE => "PAIRING_MODE"
  | SHOWING_RESULT => "SHOWING_RESULT"
  | ERROR_WIFI => "ERROR_WIFI"
  | ERROR_API => "ERROR_API"
  end.

Definition isInPairingMode (sm : t) : bool :=
  DeviceState_eqb (currentState sm) PAIRING_MODE.

Definition enterPairingMode (now : Z) (studentName : string) (sm : t) : t :=
  setState now PAIRING_MODE
    {| currentState := currentState sm;
       previousState := previousState sm;
       pairingStudentName := studentName;
       stateEnteredAt := stateEnteredAt sm |}.

Definition exitPairingMode (now : Z) (sm : t) : t :=
  setState now IDLE
    {| currentState := currentState sm;
       previousState := previousState sm;
       pairingStudentName := "";
       stateEnteredAt := stateEnteredAt sm |}.

Definition getCurrentStudentName (sm : t) : string := pairingStudentName sm.

(** [millis() - stateEnteredAt], in [unsigned long] arithmetic. *)
Definition getTimeInState (now : Z) (sm : t) : Z :=
  to_uint32 (millis now - stateEnteredAt sm).

Definition hasTimedOut (now : Z) (timeout : Z) (sm : t) : bool :=
  getTimeInState now sm >=? timeout.

Definition isInErrorState (sm : t) : bool :=
  DeviceState_eqb (currentState sm) ERROR_WIFI
  || DeviceState_eqb (currentState sm) ERROR_API.

Definition isReadyForCard (sm : t) : bool :=
  DeviceState_eqb (currentState sm) IDLE
  || DeviceState_eqb (currentState sm) PAIRING_MODE.

End StateMachine.

(** ** ArduinoJson documents, as far as the client reads them *)

Module ArduinoJson.

(** A parsed document.  Only integral numbers are represented: the envelopes
    of the backend carry no fractional field. *)
#[local] Unset Elimination Schemes.
Inductive JsonVariant : Type :=
| JNull
| JBool (b : bool)
| JInt (z : Z)
| JString (s : string)
| JArray (elements : list JsonVariant)
| JObject (members : list (string * JsonVariant)).
#[local] Set Elimination Schemes.

(** The two entry points of the library the client calls.  [deserializeJson]
    yields [None] for every [DeserializationError] other than [Ok] (malformed
    text, or a document larger than the [StaticJsonDocument] it is read into). *)
Class Codec : Type := {
  deserializeJson : string -> option JsonVariant;
  serializeJson : JsonVariant -> string
}.

Fixpoint lookup (key : string) (members : list (string * JsonVariant))
  : option JsonVariant :=
  match members with
  | [] => None
  | (k, v) :: rest => if String.eqb k key then Some v else lookup key rest
  end.

(** [v[key]]: the member, or a null variant when [v] is not an object or has
    no such member. *)
Definition getMember (key : string) (v : JsonVariant) : JsonVariant :=
  match v with
  | JObject members =>
      match lookup key members with
      | Some x => x
      | None => JNull
      end
  | _ => JNull
  end.

(** [doc.containsKey(key)]. *)
Definition containsKey (key : string) (v : JsonVariant) : bool :=
  match v with
  | JObject members =>
      match lookup key members with
      | Some _ => true
      | None => false
      end
  | _ => false
  end.

(** [JsonObject data = v]: a null object unless [v] holds an object. *)
Definition as_JsonObject (v : JsonVariant) : JsonVariant :=
  match v with
  | JObject members => JObject members
  | _ => JNull
  end.

(** [v | d] at type [bool]. *)
Definition or_bool (v : JsonVariant) (d : bool) : bool :=
  match v with
  | JBool b => b
  | _ => d
  end.

(** [v | d] at type [const char*]. *)
Definition or_cstr (v : JsonVariant) (d : string) : string :=
  match v with
  | JString s => s
  | _ => d
  end.

Definition INT_MIN : Z := - 2 ^ 31.
Definition INT_MAX : Z := 2 ^ 31 - 1.

(** [v | d] at type [int]: an integer that does not fit is not an [int]. *)
Definition or_int (v : JsonVariant) (d : Z) : Z :=
  match v with
  | JInt z => if (INT_MIN <=? z) && (z <=? INT_MAX) then z else d
  | _ => d
  end.

(** [a | b] on two variants: [a] unless it is null. *)
Definition or_variant (a b : JsonVariant) : JsonVariant :=
  match a with
  | JNull => b
  | _ => a
  end.

End ArduinoJson.

(** ** api_client.h: the response structures *)

Module ValidationResponse.
Record t : Type := mk {
  success : bool;
  valid : bool;
  deviceId : Z;
  schoolId : Z;
  message : string
}.
End ValidationResponse.

Module AttendanceResponse.
Record t : Type := mk {
  success : bool;
  studentName : string;
  status : string;
  message : string;
  errorCode : string
}.
End AttendanceResponse.

Module PairingResponse.
Record t : Type := mk {
  success : bool;
  studentName : string;
  message : string;
  sessionActive : bool
}.
End PairingResponse.

(** ** api_client.h / api_client.cpp *)

Module APIClient.
Import Arduino ArduinoJson.

Definition API_TIMEOUT : Z := 5000.
Definition API_MAX_RETRIES : nat := 3.

(** *** What the client runs against *)

Inductive Method : Type := GET | POST.

(** One round trip handed to [HTTPClient]. *)
Record Request : Type := mkRequest {
  method : Method;
  url : string;
  timeout : Z;
  body : string
}.

(** The surroundings of the client: what the network answers to the n-th
    round trip ever attempted (the value [http.POST] or [http.GET] returns,
    and what [http.getString] would then give), the round trips attempted so
    far, and the total time spent in [delay]. *)
Record Env : Type := mkEnv {
  script : nat -> Z * string;
  sent : list Request;
  delayed : Z
}.

(** The data members of the class. *)
Record t : Type := mk {
  serverUrl : string;
  apiKey : string;
  deviceId : Z
}.

Record State : Type := mkState {
  this : t;
  env : Env
}.

(** *** A state monad for the member functions *)

Definition M (A : Type) : Type := State -> A * State.

Definition ret {A : Type} (a : A) : M A := fun s => (a, s).

Definition bind {A B : Type} (c : M A) (k : A -> M B) : M B :=
  fun s => let (a, s') := c s in k a s'.

Declare Scope api_scope.
Delimit Scope api_scope with api.
Notation "x <- c ;; k" := (bind c (fun x => k))
  (at level 61, c at next level, right associativity) : api_scope.
Notation "' pat <- c ;; k" := (bind c (fun x => match x with pat => k end))
  (at level 61, pat pattern, c at next level, right associativity) : api_scope.
Notation "c ;; k" := (bind c (fun _ => k))
  (at level 61, right associativity) : api_scope.
Local Open Scope api_scope.

Definition get_this : M t := fun s => (this s, s).

Definition put_deviceId (id : Z) : M unit :=
  fun s =>
    (tt, {| this := {| serverUrl := serverUrl (this s);
                       apiKey := apiKey (this s);
                       deviceId := id |};
            env := env s |}).

(** [delay(ms)]. *)
Definition delay (ms : Z) : M unit :=
  fun s =>
    (tt, {| this := this s;
            env := {| script := script (env s);
                      sent := sent (env s);
                      delayed := delayed (env s) + ms |} |}).

(** [http.begin(wifiClient, url); http.setTimeout(ms);] followed by
    [http.POST(payload)] or [http.GET()]: one round trip.  The result is the
    status the call returns together with the text [http.getString()] gives
    afterwards. *)
Definition http_round_trip (m : Method) (u : string) (ms : Z) (payload : string)
  : M (Z * string) :=
  fun s =>
    (script (env s) (List.length (sent (env s))),
     {| this := this s;
        env := {| script := script (env s);
                  sent := (sent (env s)
                           ++ [{| method := m; url := u; timeout := ms;
                                  body := payload |}])%list;
                  delayed := delayed (env s) |} |}).

(** *** Member functions *)

(** The constructor [APIClient::APIClient()]. *)
Definition new : t := {| serverUrl := ""; apiKey := ""; deviceId := 0 |}.

Definition begin (serverUrl' apiKey' : string) (c : t) : t :=
  {| serverUrl :=
       if endsWith serverUrl' "/"
       then substring 0 (String.length serverUrl' - 1) serverUrl'
       else serverUrl';
     apiKey := apiKey';
     deviceId := deviceId c |}.

Definition isConfigured (c : t) : bool :=
  nonempty (serverUrl c) && nonempty (apiKey c).

Definition getDeviceId (c : t) : Z := deviceId c.

Definition setDeviceId (id : Z) (c : t) : t :=
  {| serverUrl := serverUrl c; apiKey := apiKey c; deviceId := to_uint32 id |}.

Definition buildURL (endpoint : string) : M string :=
  c <- get_this ;; ret (serverUrl c ++ endpoint).

(** The body of the [for] loop of [sendPostRequest], from iteration [retry]
    on; [fuel] is [API_MAX_RETRIES - retry], the iterations left. *)
Fixpoint post_loop (fuel retry : nat) (endpoint payload : string)
    (httpCode : Z) (response : string) : M (Z * string) :=
  match fuel with
  | O => ret (httpCode, response)
  | S fuel' =>
      (if (0 <? retry)%nat then delay 1000 else ret tt) ;;
      u <- buildURL endpoint ;;
      delay 100 ;;
      '(code, text) <- http_round_trip POST u API_TIMEOUT payload ;;
      if code >? 0 then ret (code, text)
      else post_loop fuel' (S retry) endpoint payload code response
  end.

(** Returns the status and the value left in the [response] out-parameter. *)
Definition sendPostRequest (endpoint payload response : string) : M (Z * string) :=
  post_loop API_MAX_RETRIES 0 endpoint payload (-1) response.

Fixpoint get_loop (fuel retry : nat) (endpoint : string)
    (httpCode : Z) (response : string) : M (Z * string) :=
  match fuel with
  | O => ret (httpCode, response)
  | S fuel' =>
      (if (0 <? retry)%nat then delay 500 else ret tt) ;;
      u <- buildURL endpoint ;;
      '(code, text) <- http_round_trip GET u API_TIMEOUT "" ;;
      if code >? 0 then ret (code, text)
      else get_loop fuel' (S retry) endpoint code response
  end.

Definition sendGetRequest (endpoint response : string) : M (Z * string) :=
  get_loop API_MAX_RETRIES 0 endpoint (-1) response.

Section Operations.
Context {codec : Codec}.

Definition validateAPIKey : M ValidationResponse.t :=
  c <- get_this ;;
  if negb (isConfigured c) then
    ret (ValidationResponse.mk false false 0 0 "API not configured")
  else
    let payload := serializeJson (JObject [("api_key", JString (apiKey c))]) in
    '(httpCode, response) <-
       sendPostRequest "/api/v1/public/devices/validate-key" payload "" ;;
    if httpCode =? 200 then
      match deserializeJson response with
      | Some responseDoc =>
          let success := or_bool (getMember "success" responseDoc) false in
          let message := or_cstr (getMember "message" responseDoc) "" in
          if success then
            let data := as_JsonObject (getMember "data" responseDoc) in
            let valid := or_bool (getMember "valid" data) false in
            let deviceId := to_uint32 (or_int (getMember "device_id" data) 0) in
            let schoolId := to_uint32 (or_int (getMember "school_id" data) 0) in
            (if valid && (deviceId >? 0) then put_deviceId deviceId else ret tt) ;;
            ret (ValidationResponse.mk success valid deviceId schoolId message)
          else
            ret (ValidationResponse.mk success false 0 0 message)
      | None =>
          ret (ValidationResponse.mk false false 0 0 "JSON parse error")
      end
    else
      ret (ValidationResponse.mk false false 0 0
             ("HTTP error: " ++ String_of_int httpCode)).

Definition recordAttendance (rfidCode : string) : M AttendanceResponse.t :=
  c <- get_this ;;
  if negb (isConfigured c) then
    ret (AttendanceResponse.mk false "" "" "API not configured" "")
  else
    let payload :=
      serializeJson (JObject [("api_key", JString (apiKey c));
                              ("rfid_code", JString rfidCode)]) in
    '(httpCode, response) <-
       sendPostRequest "/api/v1/public/attendance/rfid" payload "" ;;
    if httpCode =? 200 then
      match deserializeJson response with
      | Some responseDoc =>
          let topSuccess := or_bool (getMember "success" responseDoc) false in
          let data := as_JsonObject (getMember "data" responseDoc) in
          let studentName := or_cstr (getMember "student_name" data) "" in
          let status :=
            or_cstr (or_variant (getMember "type" data) (getMember "status" data)) "" in
          let message := or_cstr (getMember "message" data) "" in
          let success := topSuccess || or_bool (getMember "success" data) false in
          let success := if nonempty studentName then true else success in
          ret (AttendanceResponse.mk success studentName status message "")
      | None =>
          ret (AttendanceResponse.mk false "" "" "JSON parse error" "")
      end
    else if (httpCode =? 400) || (httpCode =? 404) then
      match deserializeJson response with
      | Some errorDoc =>
          let errorObj := as_JsonObject (getMember "error" errorDoc) in
          ret (AttendanceResponse.mk false "" ""
                 (or_cstr (getMember "message" errorObj) "")
                 (or_cstr (getMember "code" errorObj) ""))
      | None =>
          ret (AttendanceResponse.mk false "" "" "card_not_found" "")
      end
    else
      ret (AttendanceResponse.mk false "" ""
             ("HTTP error: " ++ String_of_int httpCode) "").

Definition processPairing (rfidCode : string) : M PairingResponse.t :=
  c <- get_this ;;
  if negb (isConfigured c) then
    ret (PairingResponse.mk false "" "API not configured" false)
  else
    let payload :=
      serializeJson (JObject [("api_key", JString (apiKey c));
                              ("rfid_code", JString rfidCode)]) in
    '(httpCode, response) <-
       sendPostRequest "/api/v1/public/pairing/rfid" payload "" ;;
    if httpCode =? 200 then
      match deserializeJson response with
      | Some responseDoc =>
          ret (PairingResponse.mk
                 (or_bool (getMember "success" responseDoc) false)
                 (or_cstr (getMember "student_name" responseDoc) "")
                 (or_cstr (getMember "message" responseDoc) "")
                 false)
      | None =>
          ret (PairingResponse.mk false "" "JSON parse error" false)
      end
    else if httpCode =? 409 then
      ret (PairingResponse.mk false "" "card_already_used" false)
    else if httpCode =? 400 then
      match deserializeJson response with
      | Some responseDoc =>
          ret (PairingResponse.mk false ""
                 (or_cstr (getMember "message" responseDoc) "Bad request") false)
      | None =>
          ret (PairingResponse.mk false "" "Bad request" false)
      end
    else
      ret (PairingResponse.mk false ""
             ("HTTP error: " ++ String_of_int httpCode) false).

Definition checkPairingStatus : M PairingResponse.t :=
  c <- get_this ;;
  if negb (isConfigured c) || (deviceId c =? 0) then
    ret (PairingResponse.mk false "" "" false)
  else
    let endpoint := "/api/v1/public/pairing/status/" ++ String_of_int (deviceId c) in
    '(httpCode, response) <- sendGetRequest endpoint "" ;;
    if httpCode =? 200 then
      match deserializeJson response with
      | None => ret (PairingResponse.mk false "" "" false)
      | Some responseDoc =>
          let success := or_bool (getMember "success" responseDoc) false in
          if success && containsKey "data" responseDoc then
            let data := as_JsonObject (getMember "data" responseDoc) in
            ret (PairingResponse.mk success
                   (or_cstr (getMember "student_name" data) "")
                   ""
                   (or_bool (getMember "active" data) false))
          else
            ret (PairingResponse.mk success "" "" false)
      end
    else
      ret (PairingResponse.mk false "" "" false).

End Operations.

(** *** The client over its lifetime *)

(** A call of a public member function. *)
Inductive Call : Type :=
| CallBegin (serverUrl' apiKey' : string)
| CallValidateAPIKey
| CallRecordAttendance (rfidCode : string)
| CallProcessPairing (rfidCode : string)
| CallCheckPairingStatus
| CallSetDeviceId (id : Z).

Definition lift (f : t -> t) (s : State) : State :=
  {| this := f (this s); env := env s |}.

Definition run_call {codec : Codec} (call : Call) (s : State) : State :=
  match call with
  | CallBegin u k => lift (begin u k) s
  | CallValidateAPIKey => snd (validateAPIKey s)
  | CallRecordAttendance rfid => snd (recordAttendance rfid s)
  | CallProcessPairing rfid => snd (processPairing rfid s)
  | CallCheckPairingStatus => snd (checkPairingStatus s)
  | CallSetDeviceId id => lift (setDeviceId id) s
  end.

Definition run_calls {codec : Codec} (calls : list Call) (s : State) : State :=
  fold_left (fun s' call => run_call call s') calls s.

(** Whether a call is the public setter of the device identifier. *)
Definition is_setter (call : Call) : bool :=
  match call with
  | CallSetDeviceId _ => true
  | _ => false
  end.

(** Whether a call is one of the two members that assign [deviceId]. *)
Definition writes_deviceId (call : Call) : bool :=
  match call with
  | CallValidateAPIKey | CallSetDeviceId _ => true
  | _ => false
  end.

(** The number of round trips a computation attempted. *)
Definition attempts (before after : State) : nat :=
  (List.length (sent (env after)) - List.length (sent (env before)))%nat.

(** The status the network gives to the [j]-th round trip from [s] on. *)
Definition status_at (s : State) (j : nat) : Z :=
  fst (script (env s) (List.length (sent (env s)) + j)%nat).

Definition text_at (s : State) (j : nat) : string :=
  snd (script (env s) (List.length (sent (env s)) + j)%nat).

(** The network gives the definite status [code] with body [text] to the next
    request: to its first round trip, or to a later one of the
    [API_MAX_RETRIES] after the earlier ones brought no status. *)
Definition answers (s : State) (code : Z) (text : string) : Prop :=
  exists j : nat,
    (j < API_MAX_RETRIES)%nat
    /\ (forall i : nat, (i < j)%nat -> status_at s i <= 0)
    /\ status_at s j = code
    /\ text_at s j = text
    /\ code > 0.

(** What a retry loop with [fuel] iterations left makes of a script read from
    index [k] on: the number of round trips, and the pair it returns. *)
Fixpoint tries (fuel : nat) (sc : nat -> Z * string) (k : nat) : nat :=
  match fuel with
  | O => O
  | S fuel' => if fst (sc k) >? 0 then 1%nat else S (tries fuel' sc (S k))
  end.

Fixpoint outcome (fuel : nat) (sc : nat -> Z * string) (k : nat)
    (httpCode : Z) (response : string) : Z * string :=
  match fuel with
  | O => (httpCode, response)
  | S fuel' =>
      if fst (sc k) >? 0 then sc k
      else outcome fuel' sc (S k) (fst (sc k)) response
  end.

(** What a request loop started in state [s] with [fuel] iterations left
    does, in terms of [tries] and [outcome]. *)
Definition runs_script (fuel : nat) (s : State) (code : Z) (resp : string)
    (r : Z * string * State) : Prop :=
  fst r = outcome fuel (script (env s)) (List.length (sent (env s))) code resp
  /\ this (snd r) = this s
  /\ script (env (snd r)) = script (env s)
  /\ List.length (sent (env (snd r)))
     = (List.length (sent (env s))
        + tries fuel (script (env s)) (List.length (sent (env s))))%nat.

(** The retry policy, for the result [r] of a request issued in state [s]
    with [response] as the initial value of the out-parameter. *)
Record retry_policy (s : State) (response : string) (r : Z * string * State)
  : Prop := {
  (* a definite first status ends the request after one round trip *)
  rp_short_circuit :
    status_at s 0 > 0 ->
    attempts s (snd r) = 1%nat /\ fst r = (status_at s 0, text_at s 0);
  (* a further round trip is made only after one without a status *)
  rp_retry_only_on_failure :
    forall j : nat, (S j < attempts s (snd r))%nat -> status_at s j <= 0;
  (* never more than the maximum, never none *)
  rp_bound : (1 <= attempts s (snd r) <= API_MAX_RETRIES)%nat;
  (* fewer round trips than the maximum only after a definite status *)
  rp_stops_on_status :
    (attempts s (snd r) < API_MAX_RETRIES)%nat -> fst (fst r) > 0;
  (* the status returned is that of the last round trip *)
  rp_last_status :
    fst (fst r) = status_at s (attempts s (snd r) - 1);
  (* the out-parameter is written only on a definite status *)
  rp_response :
    snd (fst r) = if fst (fst r) >? 0
                  then text_at s (attempts s (snd r) - 1)
                  else response;
  (* the script and the client are left alone *)
  rp_frame : script (env (snd r)) = script (env s) /\ this (snd r) = this s
}.

(** *** States and codecs for worked examples *)

(** Client [c] before any round trip, against a network that answers the
    n-th round trip with [reply n]. *)
Definition fresh_state (c : t) (reply : nat -> Z * string) : State :=
  {| this := c; env := {| script := reply; sent := []; delayed := 0 |} |}.

Definition configured : t := begin "http://school.local/" "key-1" new.

(** A codec given by a table from response texts to the documents they
    stand for; a text outside the table does not parse. *)
Definition table_codec (table : list (string * JsonVariant)) : Codec :=
  {| deserializeJson := fun text => lookup text table;
     serializeJson := fun _ => "{}" |}.

(** [{success, data:{valid, device_id, school_id}}] *)
Definition validation_doc (id : Z) : JsonVariant :=
  JObject [("success", JBool true);
           ("data", JObject [("valid", JBool true);
                             ("device_id", JInt id);
                             ("school_id", JInt 3)])].

(** [{success, data:{student_name, type, success}}] with both flags false. *)
Definition attendance_doc_flags_false : JsonVariant :=
  JObject [("success", JBool false);
           ("data", JObject [("student_name", JString "Alice");
                             ("type", JString "on_time");
                             ("success", JBool false)])].

(** [{success, data:{active, student_name}}] *)
Definition status_doc (ok active : bool) (name : string) : JsonVariant :=
  JObject [("success", JBool ok);
           ("data", JObject [("active", JBool active);
                             ("student_name", JString name)])].

End APIClient.

(** ** The state machine over a run of calls *)

Module StateMachineCalls.
Import StateMachine.

(** A call of one of the three members that change the machine, with the
    uptime at which it is made. *)
Inductive Call : Type :=
| CallSetState (now : Z) (newState : DeviceState)
| CallEnterPairingMode (now : Z) (studentName : string)
| CallExitPairingMode (now : Z).

Definition run_call (call : Call) (sm : t) : t :=
  match call with
  | CallSetState now m => setState now m sm
  | CallEnterPairingMode now name => enterPairingMode now name sm
  | CallExitPairingMode now => exitPairingMode now sm
  end.

Definition run_calls (calls : list Call) (sm : t) : t :=
  fold_left (fun sm' call => run_call call sm') calls sm.

Definition is_set_state (call : Call) : bool :=
  match call with
  | CallSetState _ _ => true
  | _ => false
  end.


End StateMachineCalls.

(** ** Arduino [String] and C string helpers *)

Module ArduinoString.

(** [String(value, HEX)] for an unsigned value: lower-case digits, no padding. *)
Definition String_of_hex (n : N) : string :=
  HexadecimalString.NilZero.string_of_uint (N.to_hex_uint n).

(** [toupper] on one character. *)
Definition toupper (c : ascii) : ascii :=
  let n := nat_of_ascii c in
  if (97 <=? n)%nat && (n <=? 122)%nat then ascii_of_nat (n - 32) else c.

(** [s.toUpperCase()]. *)
Fixpoint toUpperCase (s : string) : string :=
  match s with
  | EmptyString => EmptyString
  | String c rest => String (toupper c) (toUpperCase rest)
  end.

(** [strlcpy(dst, src, size)]: what [dst] holds afterwards, at most
    [size - 1] characters of [src]. *)
Definition strlcpy (src : string) (size : nat) : string :=
  substring 0 (size - 1) src.

(** [strncpy(dest + offset, src, n)] for [n] no larger than the length of
    [src]: exactly [n] characters are written, without a terminator. *)
Definition strncpy_at (dest : list ascii) (offset : nat) (src : list ascii) (n : nat)
  : list ascii :=
  firstn offset dest ++ firstn n src ++ skipn (offset + n) dest.

End ArduinoString.

(** ** rfid_reader.cpp *)

Module RFIDReader.
Import ArduinoString.

(** The [for] loop of [formatUID] from index [i] on, [fuel] iterations left. *)
Fixpoint formatUID_loop (fuel i : nat) (uid : list byte) (result : string) : string :=
  match fuel with
  | O => result
  | S fuel' =>
      let b := Byte.to_N (nth i uid x00) in
      let result := if (b <? 16)%N then result ++ "0" else result in
      let result := result ++ String_of_hex b in
      formatUID_loop fuel' (S i) uid result
  end.

Definition formatUID (uid : list byte) (size : nat) : string :=
  toUpperCase (formatUID_loop size 0 uid "").

(** What one iteration appends for the byte [b]. *)
Definition byte_hex (b : byte) : string :=
  (if (Byte.to_N b <? 16)%N then "0" else "") ++ String_of_hex (Byte.to_N b).

(** Reading a UID text back: the value of an upper-case hexadecimal digit,
    and the bytes a text of digit pairs stands for. *)
Definition is_upper_hex (c : ascii) : bool :=
  let n := N_of_ascii c in
  ((48 <=? n) && (n <=? 57) || (65 <=? n) && (n <=? 70))%N.

Definition hex_value (c : ascii) : N :=
  let n := N_of_ascii c in
  if ((48 <=? n) && (n <=? 57))%N then (n - 48)%N else (n - 55)%N.

Fixpoint parse_hex_pairs (s : string) : list N :=
  match s with
  | String c1 (String c2 rest) =>
      (16 * hex_value c1 + hex_value c2)%N :: parse_hex_pairs rest
  | _ => []
  end.

Fixpoint all_chars (p : ascii -> bool) (s : string) : bool :=
  match s with
  | EmptyString => true
  | String c rest => p c && all_chars p rest
  end.

(** [isConnected] on the value read from the version register. *)
Definition isConnected (version : N) : bool :=
  ((version =? 0x91) || (version =? 0x92) || (version =? 0x88) || (version =? 0x12))%N.

End RFIDReader.

(** ** display_manager.cpp *)

Module DisplayManager.
Import ArduinoString.

Definition LCD_COLS : Z := 16.
Definition LCD_ROWS : Z := 2.

(** What [dest] holds after [truncateString(src, dest, maxLen)]; [None] is
    the null pointer.  For [maxLen < 3] the source writes before [dest]. *)
Definition truncateString (src : option string) (maxLen : Z) : string :=
  match src with
  | None => ""
  | Some src =>
      let srcLen := Z.of_nat (String.length src) in
      if srcLen <=? maxLen then src
      else substring 0 (Z.to_nat (maxLen - 3)) src ++ "..."
  end.

(** What [dest] holds after [centerText(text, dest, width)]. *)
Definition centerText (text : string) (width : Z) : string :=
  let textLen := Z.of_nat (String.length text) in
  let padding := Z.quot (width - textLen) 2 in
  let padding := if padding <? 0 then 0 else padding in
  let dest := repeat " "%char (Z.to_nat width) in
  let copyLen := if textLen >? width then width else textLen in
  string_of_list_ascii
    (strncpy_at dest (Z.to_nat padding) (list_ascii_of_string text) (Z.to_nat copyLen)).

(** The probing of the I2C bus: [acks a] tells whether
    [Wire.endTransmission()] returns 0 for address [a]. *)
Fixpoint detect_loop (acks : Z -> bool) (addresses : list Z) : Z :=
  match addresses with
  | [] => 0
  | a :: rest => if acks a then a else detect_loop acks rest
  end.

Definition detectI2CAddress (acks : Z -> bool) : Z :=
  detect_loop acks [0x27; 0x3F; 0x20; 0x38].

(** What is sent to the LCD. *)
Inductive Command : Type :=
| Clear
| SetCursor (col row : Z)
| Print (text : string).

Record t : Type := mk {
  lcd : bool;            (* [lcd != nullptr] *)
  lcdAddress : Z;
  initialized : bool
}.

Definition new : t := {| lcd := false; lcdAddress := 0; initialized := false |}.

Definition ready (d : t) : bool := initialized d && lcd d.

Definition showMessage (line1 line2 : option string) (d : t) : list Command :=
  if negb (ready d) then []
  else
    let buf1 := truncateString line1 LCD_COLS in
    let buf2 := truncateString line2 LCD_COLS in
    [Clear; SetCursor 0 0; Print buf1; SetCursor 0 1; Print buf2].

(** The padding loop of [showIdle], from column [i] on. *)
Fixpoint pad_loop (fuel : nat) : list Command :=
  match fuel with
  | O => []
  | S fuel' => Print " " :: pad_loop fuel'
  end.

Definition showIdle (time : option string) (d : t) : list Command :=
  if negb (ready d) then []
  else
    let timeBuf := truncateString time LCD_COLS in
    [SetCursor 0 0; Print "Tap Kartu...    "; SetCursor 0 1; Print timeBuf]
    ++ pad_loop (Z.to_nat (LCD_COLS - Z.of_nat (String.length timeBuf))).

Definition showPairingMode (studentName : option string) (d : t) : list Command :=
  if negb (ready d) then []
  else
    let nameBuf := truncateString studentName LCD_COLS in
    [Clear; SetCursor 0 0; Print "Mode Pairing"; SetCursor 0 1; Print nameBuf].

Definition showSuccess (name status : option string) (d : t) : list Command :=
  if negb (ready d) then []
  else
    let nameBuf := truncateString name LCD_COLS in
    let statusBuf := truncateString status LCD_COLS in
    [Clear; SetCursor 0 0; Print nameBuf; SetCursor 0 1; Print statusBuf].

Definition showError (message : option string) (d : t) : list Command :=
  if negb (ready d) then []
  else
    let msgBuf := truncateString message LCD_COLS in
    [Clear; SetCursor 0 0; Print "Error"; SetCursor 0 1; Print msgBuf].

Definition showWiFiStatus (connected : bool) (ip : option string) (d : t)
  : list Command :=
  if negb (ready d) then []
  else
    [Clear; SetCursor 0 0]
    ++ (if connected then
          Print "WiFi: Connected"
          :: match ip with
             | Some ip' =>
                 if (0 <? String.length ip')%nat
                 then [SetCursor 0 1; Print (truncateString ip LCD_COLS)]
                 else []
             | None => []
             end
        else
          [Print "WiFi: Terputus"; SetCursor 0 1; Print "Reconnecting..."]).

Definition showConnecting (ssid : option string) (d : t) : list Command :=
  if negb (ready d) then []
  else
    let ssidBuf := truncateString ssid LCD_COLS in
    [Clear; SetCursor 0 0; Print "Connecting WiFi"; SetCursor 0 1; Print ssidBuf].

(** Whether every print of a run of commands ends within the last column,
    the text being written from the cursor on; [col] is where the cursor
    stands. *)
Fixpoint fits_from (col : Z) (commands : list Command) : bool :=
  match commands with
  | [] => true
  | Clear :: rest => fits_from 0 rest
  | SetCursor c _ :: rest => fits_from c rest
  | Print text :: rest =>
      let col' := col + Z.of_nat (String.length text) in
      (col' <=? LCD_COLS) && fits_from col' rest
  end.

(** The number of characters written on row [row], following the cursor. *)
Fixpoint written_on (row : Z) (cur : Z) (commands : list Command) : Z :=
  match commands with
  | [] => 0
  | Clear :: rest => written_on row 0 rest
  | SetCursor _ r :: rest => written_on row r rest
  | Print text :: rest =>
      (if cur =? row then Z.of_nat (String.length text) else 0)
      + written_on row cur rest
  end.

End DisplayManager.

(** ** buzzer_manager.cpp *)

Module BuzzerManager.
Import Arduino.

(** What happens on the buzzer pin. *)
Inductive Event : Type :=
| DigitalWrite (high : bool)
| Delay (ms : Z).

(** [delay] takes an [unsigned long]. *)
Definition beep (duration : Z) : list Event :=
  [DigitalWrite true; Delay (to_uint32 duration); DigitalWrite false].

(** The [for] loop of [beepPattern] from iteration [i] on. *)
Fixpoint beepPattern_loop (fuel : nat) (i count onTime offTime : Z) : list Event :=
  match fuel with
  | O => []
  | S fuel' =>
      beep onTime
      ++ (if i <? count - 1 then [Delay (to_uint32 offTime)] else [])
      ++ beepPattern_loop fuel' (i + 1) count onTime offTime
  end.

Definition beepPattern (count onTime offTime : Z) : list Event :=
  beepPattern_loop (Z.to_nat count) 0 count onTime offTime.

Definition beepSuccess : list Event := beep 100.
Definition beepPairingOK : list Event := beepPattern 2 100 100.
Definition beepError : list Event := beepPattern 3 100 100.
Definition beepNetworkError : list Event := beepPattern 2 500 200.
Definition beepStartup : list Event := beep 300.

(** Observations on a run of events that starts with the pin at [high]. *)
Fixpoint total_delay (events : list Event) : Z :=
  match events with
  | [] => 0
  | DigitalWrite _ :: rest => total_delay rest
  | Delay ms :: rest => ms + total_delay rest
  end.

Fixpoint sounding_time (high : bool) (events : list Event) : Z :=
  match events with
  | [] => 0
  | DigitalWrite h :: rest => sounding_time h rest
  | Delay ms :: rest => (if high then ms else 0) + sounding_time high rest
  end.

Fixpoint final_level (high : bool) (events : list Event) : bool :=
  match events with
  | [] => high
  | DigitalWrite h :: rest => final_level h rest
  | Delay _ :: rest => final_level high rest
  end.

(** The number of times the pin goes from LOW to HIGH. *)
Fixpoint pulses (high : bool) (events : list Event) : nat :=
  match events with
  | [] => O
  | DigitalWrite h :: rest =>
      ((if negb high && h then 1 else 0) + pulses h rest)%nat
  | Delay _ :: rest => pulses high rest
  end.

End BuzzerManager.

(** ** time_manager.cpp *)

Module TimeManager.
Import Arduino.

Definition NTP_SYNC_INTERVAL : Z := 3600000.

Record t : Type := mk {
  timeClient : bool;     (* [timeClient != nullptr] *)
  lastSync : Z;
  synced : bool
}.

Definition new : t := {| timeClient := false; lastSync := 0; synced := false |}.

(** [forceUpdate] is what [timeClient->forceUpdate()] answers when asked,
    [now] the uptime at which [millis()] is read. *)
Definition forceSync (now : Z) (forceUpdate : bool) (tm : t) : bool * t :=
  if negb (timeClient tm) then (false, tm)
  else if forceUpdate then
    (true, {| timeClient := timeClient tm; lastSync := millis now; synced := true |})
  else (false, tm).

Definition begin (now : Z) (forceUpdate : bool) (tm : t) : t :=
  snd (forceSync now forceUpdate
         {| timeClient := true; lastSync := lastSync tm; synced := synced tm |}).

(** What a member function asks of the NTP client. *)
Inductive NtpRequest : Type :=
| NtpUpdate          (* [timeClient->update()] *)
| NtpForceUpdate.    (* [timeClient->forceUpdate()] *)

(** [now] is the uptime read by [update] itself, [now'] the one read by the
    [forceSync] it may call.  The result is the requests made to the NTP
    client, in order, and the manager afterwards.  [timeClient->update()],
    the client's own periodic synchronisation, is called first and its
    result is not used; [forceUpdate] is what [timeClient->forceUpdate()]
    answers if [forceSync] comes to ask. *)
Definition update (now now' : Z) (forceUpdate : bool) (tm : t)
  : list NtpRequest * t :=
  if negb (timeClient tm) then ([], tm)
  else if synced tm && (to_uint32 (millis now - lastSync tm) >=? NTP_SYNC_INTERVAL)
  then ([NtpUpdate; NtpForceUpdate], snd (forceSync now' forceUpdate tm))
  else ([NtpUpdate], tm).

Definition isSynced (tm : t) : bool := synced tm.

Definition padZero (num : Z) : string :=
  if num <? 10 then "0" ++ String_of_int num else String_of_int num.

(** What the NTP client reports: [timeClient->getHours()] and so on. *)
Record Clock : Type := mkClock {
  hours : Z;
  minutes : Z;
  seconds : Z;
  epochTime : Z
}.

Definition getHours (c : Clock) (tm : t) : Z :=
  if negb (timeClient tm) then 0 else hours c.

Definition getMinutes (c : Clock) (tm : t) : Z :=
  if negb (timeClient tm) then 0 else minutes c.

Definition getSeconds (c : Clock) (tm : t) : Z :=
  if negb (timeClient tm) then 0 else seconds c.

Definition getEpochTime (c : Clock) (tm : t) : Z :=
  if negb (timeClient tm) then 0 else epochTime c.

Definition getFormattedTime (c : Clock) (tm : t) : string :=
  if negb (timeClient tm) then "--:--:--"
  else padZero (getHours c tm) ++ ":" ++ padZero (getMinutes c tm)
       ++ ":" ++ padZero (getSeconds c tm).

(** The fields of [struct tm] the date is built from. *)
Record tm_struct : Type := mkTm {
  tm_mday : Z;
  tm_mon : Z;
  tm_year : Z
}.

Section Date.
(** [gmtime] of the C library. *)
Variable gmtime : Z -> tm_struct.

Definition getFormattedDate (c : Clock) (tm : t) : string :=
  if negb (timeClient tm) || negb (synced tm) then "--/--/----"
  else
    let timeInfo := gmtime (epochTime c) in
    let day := tm_mday timeInfo in
    let month := tm_mon timeInfo + 1 in
    let year := tm_year timeInfo + 1900 in
    padZero day ++ "/" ++ padZero month ++ "/" ++ String_of_int year.

Definition getFormattedDateTime (c : Clock) (tm : t) : string :=
  getFormattedDate c tm ++ " " ++ getFormattedTime c tm.

End Date.

(** A call of a member that changes the manager, with what the surroundings
    answer during it. *)
Inductive Call : Type :=
| CallBegin (now : Z) (forceUpdate : bool)
| CallUpdate (now now' : Z) (forceUpdate : bool)
| CallForceSync (now : Z) (forceUpdate : bool).

Definition run_call (call : Call) (tm : t) : t :=
  match call with
  | CallBegin now ok => begin now ok tm
  | CallUpdate now now' ok => snd (update now now' ok tm)
  | CallForceSync now ok => snd (forceSync now ok tm)
  end.

Definition run_calls (calls : list Call) (tm : t) : t :=
  fold_left (fun tm' call => run_call call tm') calls tm.

Definition is_update (call : Call) : bool :=
  match call with
  | CallUpdate _ _ _ => true
  | _ => false
  end.

End TimeManager.

(** ** config.h / config.cpp *)

Module ConfigManager.
Import Arduino ArduinoString ArduinoJson.

Definition CONFIG_WIFI_SSID_MAX : nat := 32.
Definition CONFIG_WIFI_PASSWORD_MAX : nat := 64.
Definition CONFIG_API_KEY_MAX : nat := 65.
Definition CONFIG_SERVER_URL_MAX : nat := 128.

(** The [char] arrays hold the text before their terminator. *)
Record Config : Type := mkConfig {
  wifi_ssid : string;
  wifi_password : string;
  api_key : string;
  server_url : string;
  configured : bool
}.

Record t : Type := mk {
  config : Config;
  initialized : bool
}.

(** The flash file system, as far as the manager uses it: whether it mounts,
    the content of [CONFIG_FILE_PATH] if the file exists, whether the file
    opens for reading and for writing, and whether a write stores its bytes. *)
Record LittleFS : Type := mkFS {
  mounts : bool;
  file : option string;
  opens_r : bool;
  opens_w : bool;
  stores : bool
}.

Definition with_file (content : option string) (fs : LittleFS) : LittleFS :=
  {| mounts := mounts fs; file := content; opens_r := opens_r fs;
     opens_w := opens_w fs; stores := stores fs |}.

(** The values entered in the editable block of config.h. *)
Class Defaults : Type := {
  WIFI_SSID : string;
  WIFI_PASSWORD : string;
  API_KEY : string;
  SERVER_URL : string
}.

Definition updateConfiguredStatus (c : Config) : Config :=
  {| wifi_ssid := wifi_ssid c;
     wifi_password := wifi_password c;
     api_key := api_key c;
     server_url := server_url c;
     configured := nonempty (wifi_ssid c) && nonempty (api_key c)
                   && nonempty (server_url c) |}.

Definition setWiFi (ssid password : string) (cm : t) : t :=
  {| config :=
       updateConfiguredStatus
         {| wifi_ssid := strlcpy ssid CONFIG_WIFI_SSID_MAX;
            wifi_password := strlcpy password CONFIG_WIFI_PASSWORD_MAX;
            api_key := api_key (config cm);
            server_url := server_url (config cm);
            configured := configured (config cm) |};
     initialized := initialized cm |}.

Definition setAPIKey (key : string) (cm : t) : t :=
  {| config :=
       updateConfiguredStatus
         {| wifi_ssid := wifi_ssid (config cm);
            wifi_password := wifi_password (config cm);
            api_key := strlcpy key CONFIG_API_KEY_MAX;
            server_url := server_url (config cm);
            configured := configured (config cm) |};
     initialized := initialized cm |}.

Definition setServerURL (url : string) (cm : t) : t :=
  {| config :=
       updateConfiguredStatus
         {| wifi_ssid := wifi_ssid (config cm);
            wifi_password := wifi_password (config cm);
            api_key := api_key (config cm);
            server_url := strlcpy url CONFIG_SERVER_URL_MAX;
            configured := configured (config cm) |};
     initialized := initialized cm |}.

Definition isConfigured (cm : t) : bool := configured (config cm).

Definition get (cm : t) : Config := config cm.

Section Members.
Context {defaults : Defaults} {codec : Codec}.

Definition setDefaults (cm : t) : t :=
  {| config :=
       updateConfiguredStatus
         {| wifi_ssid := strlcpy WIFI_SSID CONFIG_WIFI_SSID_MAX;
            wifi_password := strlcpy WIFI_PASSWORD CONFIG_WIFI_PASSWORD_MAX;
            api_key := strlcpy API_KEY CONFIG_API_KEY_MAX;
            server_url := strlcpy SERVER_URL CONFIG_SERVER_URL_MAX;
            configured := configured (config cm) |};
     initialized := initialized cm |}.

(** The constructor [ConfigManager::ConfigManager()]. *)
Definition new : t :=
  setDefaults {| config := mkConfig "" "" "" "" false; initialized := false |}.

Definition begin (fs : LittleFS) (cm : t) : bool * t :=
  if negb (mounts fs) then (false, cm)
  else (true, {| config := config cm; initialized := true |}).

Definition load (fs : LittleFS) (cm : t) : bool * t :=
  if negb (initialized cm) then (false, cm)
  else
    match file fs with
    | None => (false, cm)
    | Some content =>
        if negb (opens_r fs) then (false, cm)
        else
          match deserializeJson content with
          | None => (false, cm)
          | Some doc =>
              (true,
               {| config :=
                    {| wifi_ssid :=
                         strlcpy (or_cstr (getMember "wifi_ssid" doc) "")
                           CONFIG_WIFI_SSID_MAX;
                       wifi_password :=
                         strlcpy (or_cstr (getMember "wifi_password" doc) "")
                           CONFIG_WIFI_PASSWORD_MAX;
                       api_key :=
                         strlcpy (or_cstr (getMember "api_key" doc) "")
                           CONFIG_API_KEY_MAX;
                       server_url :=
                         strlcpy (or_cstr (getMember "server_url" doc) "")
                           CONFIG_SERVER_URL_MAX;
                       configured := or_bool (getMember "configured" doc) false |};
                  initialized := initialized cm |})
          end
    end.

(** The document [save] builds. *)
Definition config_doc (c : Config) : JsonVariant :=
  JObject [("wifi_ssid", JString (wifi_ssid c));
           ("wifi_password", JString (wifi_password c));
           ("api_key", JString (api_key c));
           ("server_url", JString (server_url c));
           ("configured", JBool (configured c))].

(** Opening for writing empties the file; [serializeJson(doc, file)] returns
    the number of bytes it wrote. *)
Definition save (cm : t) (fs : LittleFS) : bool * LittleFS :=
  if negb (initialized cm) then (false, fs)
  else if negb (opens_w fs) then (false, fs)
  else
    let text := serializeJson (config_doc (config cm)) in
    let written := if stores fs then text else "" in
    if (String.length written =? 0)%nat then (false, with_file (Some "") fs)
    else (true, with_file (Some written) fs).

Definition reset (cm : t) (fs : LittleFS) : t * LittleFS :=
  let cm' := setDefaults cm in
  match file fs with
  | Some _ => if initialized cm' then (cm', with_file None fs) else (cm', fs)
  | None => (cm', fs)
  end.

(** A call of a public member on the manager and its file system. *)
Inductive Call : Type :=
| CallBegin
| CallLoad
| CallSave
| CallReset
| CallSetWiFi (ssid password : string)
| CallSetAPIKey (key : string)
| CallSetServerURL (url : string).

Definition run_call (call : Call) (st : t * LittleFS) : t * LittleFS :=
  let (cm, fs) := st in
  match call with
  | CallBegin => (snd (begin fs cm), fs)
  | CallLoad => (snd (load fs cm), fs)
  | CallSave => (cm, snd (save cm fs))
  | CallReset => reset cm fs
  | CallSetWiFi ssid password => (setWiFi ssid password cm, fs)
  | CallSetAPIKey key => (setAPIKey key cm, fs)
  | CallSetServerURL url => (setServerURL url cm, fs)
  end.

Definition run_calls (calls : list Call) (st : t * LittleFS) : t * LittleFS :=
  fold_left (fun st' call => run_call call st') calls st.

End Members.

Definition is_load (call : Call) : bool :=
  match call with
  | CallLoad => true
  | _ => false
  end.

(** Every text fits its array, terminator included. *)
Definition well_sized (c : Config) : Prop :=
  (String.length (wifi_ssid c) < CONFIG_WIFI_SSID_MAX)%nat
  /\ (String.length (wifi_password c) < CONFIG_WIFI_PASSWORD_MAX)%nat
  /\ (String.length (api_key c) < CONFIG_API_KEY_MAX)%nat
  /\ (String.length (server_url c) < CONFIG_SERVER_URL_MAX)%nat.

(** The flag says that the three required texts are set. *)
Definition flag_matches (c : Config) : Prop :=
  configured c
  = nonempty (wifi_ssid c) && nonempty (api_key c) && nonempty (server_url c).

(** A file system in working order, without a stored file. *)
Definition example_fs : LittleFS :=
  {| mounts := true; file := None; opens_r := true; opens_w := true;
     stores := true |}.

Definition example_defaults : Defaults :=
  {| WIFI_SSID := "school-wifi"; WIFI_PASSWORD := "secret";
     API_KEY := "key-1"; SERVER_URL := "http://school.local:3000" |}.

End ConfigManager.

(** * Properties *)

Module ArduinoFacts.
Import Arduino.

Lemma to_uint32_range z : 0 <= to_uint32 z < ULONG_MODULUS.
Proof. unfold to_uint32, ULONG_MODULUS. apply Z.mod_pos_bound. lia. Qed.

Lemma to_uint32_small z : 0 <= z < ULONG_MODULUS -> to_uint32 z = z.
Proof. intros H. unfold to_uint32. apply Z.mod_small. exact H. Qed.

Lemma nonempty_length s : nonempty s = true <-> s <> "".
Proof.
  unfold nonempty. destruct s as [|c s]; simpl.
  - split; [discriminate | intros H; now elim H].
  - split; [discriminate | reflexivity].
Qed.

End ArduinoFacts.

(** ** The device state machine *)

Module StateMachineFacts.
Import Arduino ArduinoFacts StateMachine.



Lemma DeviceState_eqb_refl a : DeviceState_eqb a a = true.
Proof. unfold DeviceState_eqb. destruct (DeviceState_eq_dec a a); congruence. Qed.

Lemma DeviceState_eqb_eq a b : DeviceState_eqb a b = true <-> a = b.
Proof.
  unfold DeviceState_eqb. destruct (DeviceState_eq_dec a b); split; congruence.
Qed.

Lemma DeviceState_eqb_neq a b : DeviceState_eqb a b = false <-> a <> b.
Proof.
  unfold DeviceState_eqb. destruct (DeviceState_eq_dec a b); split; congruence.
Qed.

Lemma setState_same now sm : setState now (currentState sm) sm = sm.
Proof. unfold setState. rewrite DeviceState_eqb_refl. reflexivity. Qed.

Lemma setState_current now m sm : currentState (setState now m sm) = m.
Proof.
  unfold setState. destruct (DeviceState_eqb m (currentState sm)) eqn:E; simpl.
  - symmetry. now apply DeviceState_eqb_eq.
  - reflexivity.
Qed.

Lemma setState_name now m sm :
  pairingStudentName (setState now m sm) = pairingStudentName sm.
Proof.
  unfold setState. destruct (negb (DeviceState_eqb m (currentState sm))); reflexivity.
Qed.

Lemma setState_entered now m sm :
  m <> currentState sm -> stateEnteredAt (setState now m sm) = millis now.
Proof.
  intros H. unfold setState.
  apply DeviceState_eqb_neq in H. rewrite H. reflexivity.
Qed.

(** The dwell time is the elapsed time as a 32-bit counter shows it. *)
Lemma elapsed_wrapped t0 t sm :
  stateEnteredAt sm = millis t0 ->
  getTimeInState t sm = to_uint32 (t - t0).
Proof.
  intros He. unfold getTimeInState, millis, to_uint32 in *. rewrite He.
  now rewrite <- Zminus_mod.
Qed.

(** It is the true elapsed time as long as less than [2^32] ms (about 49.7
    days) have passed since the state was entered. *)
Lemma elapsed_since t0 t sm :
  stateEnteredAt sm = millis t0 ->
  0 <= t - t0 < ULONG_MODULUS ->
  getTimeInState t sm = t - t0.
Proof.
  intros He Hr. rewrite (elapsed_wrapped t0) by exact He.
  now apply to_uint32_small.
Qed.



(** C4. From any prior state and for any identity [s], [enterPairingMode s]
    leaves the stored identity equal to [s] and the mode PAIRING_MODE; an
    [exitPairingMode] issued afterwards leaves the identity empty and the mode
    IDLE.  [exitPairingMode] clears the identity from any state whatsoever,
    also when the machine is not in PAIRING_MODE. *)
Theorem pairing_session_enter_exit :
  forall (sm : t) (s : string) (t1 t2 : Z),
    getCurrentStudentName (enterPairingMode t1 s sm) = s
    /\ getState (enterPairingMode t1 s sm) = PAIRING_MODE
    /\ getCurrentStudentName (exitPairingMode t2 (enterPairingMode t1 s sm)) = ""
    /\ getState (exitPairingMode t2 (enterPairingMode t1 s sm)) = IDLE
    /\ (forall sm' : t,
          getCurrentStudentName (exitPairingMode t2 sm') = ""
          /\ getState (exitPairingMode t2 sm') = IDLE).
Proof.
  intros sm s t1 t2.
  unfold getCurrentStudentName, getState, enterPairingMode, exitPairingMode.
  repeat split;
    rewrite ?setState_name, ?setState_current; reflexivity.
Qed.

(** C5. Calling [setState m] while the current mode is already [m] changes
    nothing: the machine is returned as it was, so the entry timestamp, the
    current mode and the previous mode are unchanged, and the dwell time read
    afterwards is the time elapsed since the transition that first entered
    [m] (at uptime [t0], from a state [sm0] in another mode): always so as
    the 32-bit millisecond counter shows it, and exactly so while less than
    [2^32] ms have elapsed. *)
Theorem setState_same_mode_noop :
  forall (sm : t) (m : DeviceState) (now : Z),
    currentState sm = m ->
    setState now m sm = sm
    /\ stateEnteredAt (setState now m sm) = stateEnteredAt sm
    /\ currentState (setState now m sm) = currentState sm
    /\ previousState (setState now m sm) = previousState sm
    /\ (forall t : Z, getTimeInState t (setState now m sm) = getTimeInState t sm)
    /\ (forall (sm0 : t) (t0 t : Z),
          m <> currentState sm0 ->
          sm = setState t0 m sm0 ->
          getTimeInState t (setState now m sm) = to_uint32 (t - t0)
          /\ (0 <= t - t0 < ULONG_MODULUS ->
              getTimeInState t (setState now m sm) = t - t0)).
Proof.
  intros sm m now Hm.
  assert (Hsame : setState now m sm = sm)
    by (rewrite <- Hm; apply setState_same).
  rewrite Hsame. repeat split; try reflexivity.
  - apply elapsed_wrapped. subst sm. now apply setState_entered.
  - intros Hr. apply elapsed_since; [|exact Hr].
    subst sm. now apply setState_entered.
Qed.

Lemma setState_same_mode_noop_witness :
  setState 7000 PAIRING_MODE (setState 5000 PAIRING_MODE new)
  = setState 5000 PAIRING_MODE new
  /\ getTimeInState 9000 (setState 7000 PAIRING_MODE (setState 5000 PAIRING_MODE new))
     = 4000.
Proof.
  pose proof (setState_same_mode_noop
                (setState 5000 PAIRING_MODE new) PAIRING_MODE 7000 eq_refl)
    as (Hsame & _ & _ & _ & _ & Hdwell).
  split.
  - exact Hsame.
  - replace 4000 with (9000 - 5000) by reflexivity.
    apply (Hdwell new 5000 9000).
    + discriminate.
    + reflexivity.
    + unfold ULONG_MODULUS. lia.
Defined.

(** C6, as the code has it. For a threshold [T > 0], [hasTimedOut T] is false
    at the moment a mode is entered; for every threshold [T >= 0] it is true
    exactly when the time elapsed in the mode is at least [T] (so for [T = 0]
    it is true at once).  Elapsed times are below [2^32] ms, the range of the
    counter. *)
Theorem hasTimedOut_threshold :
  forall (sm : t) (m : DeviceState) (t0 T : Z),
    m <> currentState sm ->
    0 <= T < ULONG_MODULUS ->
    (0 < T -> hasTimedOut t0 T (setState t0 m sm) = false)
    /\ (forall t : Z,
          0 <= t - t0 < ULONG_MODULUS ->
          (hasTimedOut t T (setState t0 m sm) = true <-> T <= t - t0)).
Proof.
  intros sm m t0 T Hne HT.
  assert (Hel : forall t, 0 <= t - t0 < ULONG_MODULUS ->
                          getTimeInState t (setState t0 m sm) = t - t0).
  { intros t Hr. apply elapsed_since; [now apply setState_entered | exact Hr]. }
  split.
  - intros Hpos. unfold hasTimedOut.
    rewrite (Hel t0) by (unfold ULONG_MODULUS; lia).
    rewrite Z.geb_leb. apply Z.leb_gt. lia.
  - intros t Hr. unfold hasTimedOut. rewrite (Hel t Hr).
    rewrite Z.geb_leb. apply Z.leb_le.
Qed.

Lemma hasTimedOut_threshold_witness :
  hasTimedOut 1000 30000 (setState 1000 PAIRING_MODE new) = false
  /\ (hasTimedOut 31000 30000 (setState 1000 PAIRING_MODE new) = true
      <-> 30000 <= 31000 - 1000).
Proof.
  assert (Hne : PAIRING_MODE <> currentState new) by discriminate.
  assert (HT : 0 <= 30000 < ULONG_MODULUS) by (unfold ULONG_MODULUS; lia).
  pose proof (hasTimedOut_threshold new PAIRING_MODE 1000 30000 Hne HT)
    as (Hfirst & Hlater).
  split.
  - apply Hfirst. lia.
  - apply Hlater. unfold ULONG_MODULUS. lia.
Defined.

(** C6 as stated fails at [T = 0]: right after a mode is entered the elapsed
    time is zero and [hasTimedOut 0] is already true. *)
Lemma hasTimedOut_zero_threshold_counterexample :
  getTimeInState 1000 (setState 1000 IDLE new) = 0
  /\ hasTimedOut 1000 0 (setState 1000 IDLE new) = true
  /\ ~ (forall (T now : Z) (m : DeviceState) (sm : t),
          0 <= T -> m <> currentState sm ->
          hasTimedOut now T (setState now m sm) = false).
Proof.
  split; [reflexivity | split; [reflexivity |]].
  intros H.
  specialize (H 0 1000 IDLE new (Z.le_refl 0)).
  assert (Hne : IDLE <> currentState new) by discriminate.
  specialize (H Hne). discriminate H.
Qed.

(** C10. [exitPairingMode] called while the mode is already IDLE clears the
    pairing identity and leaves the entry timestamp, the previous mode and the
    mode itself as they were, so the dwell time in IDLE keeps accumulating. *)
Theorem exitPairingMode_in_idle :
  forall (sm : t) (now : Z),
    currentState sm = IDLE ->
    pairingStudentName (exitPairingMode now sm) = ""
    /\ stateEnteredAt (exitPairingMode now sm) = stateEnteredAt sm
    /\ previousState (exitPairingMode now sm) = previousState sm
    /\ currentState (exitPairingMode now sm) = IDLE
    /\ (forall t : Z,
          getTimeInState t (exitPairingMode now sm) = getTimeInState t sm).
Proof.
  intros sm now Hidle. unfold exitPairingMode, setState, getTimeInState.
  cbn [currentState]. rewrite Hidle. cbn. repeat split; assumption.
Qed.

Lemma exitPairingMode_in_idle_witness :
  pairingStudentName (exitPairingMode 9000 (setState 4000 IDLE new)) = ""
  /\ stateEnteredAt (exitPairingMode 9000 (setState 4000 IDLE new)) = 4000
  /\ previousState (exitPairingMode 9000 (setState 4000 IDLE new)) = INITIALIZING.
Proof.
  pose proof (exitPairingMode_in_idle (setState 4000 IDLE new) 9000 eq_refl)
    as (Hname & Hat & Hprev & _ & _).
  split; [exact Hname | split].
  - rewrite Hat. reflexivity.
  - rewrite Hprev. reflexivity.
Defined.

End StateMachineFacts.

(** ** The API client *)

Module APIClientFacts.
Import Arduino ArduinoFacts ArduinoJson APIClient.
Local Open Scope api_scope.

(** *** The retry loops, read off the script *)

Section Script.
Variable sc : nat -> Z * string.

Lemma tries_le fuel : forall k, (tries fuel sc k <= fuel)%nat.
Proof.
  induction fuel as [|fuel IH]; intros k; simpl.
  - lia.
  - destruct (fst (sc k) >? 0); [lia | specialize (IH (S k)); lia].
Qed.

Lemma tries_pos fuel k : (1 <= tries (S fuel) sc k)%nat.
Proof. simpl. destruct (fst (sc k) >? 0); lia. Qed.

Lemma tries_first fuel k :
  fst (sc k) > 0 -> tries (S fuel) sc k = 1%nat.
Proof.
  intros H. simpl. apply Z.gt_lt, Z.gtb_lt in H. now rewrite H.
Qed.

Lemma tries_earlier_failed fuel :
  forall k j, (S j < tries fuel sc k)%nat -> fst (sc (k + j)%nat) <= 0.
Proof.
  induction fuel as [|fuel IH]; intros k j; simpl.
  - lia.
  - destruct (fst (sc k) >? 0) eqn:E; [lia |].
    intros H. destruct j as [|j].
    + rewrite Nat.add_0_r. rewrite Z.gtb_ltb in E. apply Z.ltb_ge in E. exact E.
    + replace (k + S j)%nat with (S k + j)%nat by lia. apply IH. lia.
Qed.

Lemma outcome_first fuel k code resp :
  fst (sc k) > 0 -> outcome (S fuel) sc k code resp = sc k.
Proof.
  intros H. simpl. apply Z.gt_lt, Z.gtb_lt in H. now rewrite H.
Qed.

Lemma outcome_last fuel :
  forall k code resp,
    fst (outcome (S fuel) sc k code resp)
    = fst (sc (k + (tries (S fuel) sc k - 1))%nat).
Proof.
  induction fuel as [|fuel IH]; intros k code resp.
  - simpl. destruct (fst (sc k) >? 0); simpl; now rewrite Nat.add_0_r.
  - change (outcome (S (S fuel)) sc k code resp)
      with (if fst (sc k) >? 0 then sc k
            else outcome (S fuel) sc (S k) (fst (sc k)) resp).
    change (tries (S (S fuel)) sc k)
      with (if fst (sc k) >? 0 then 1%nat else S (tries (S fuel) sc (S k))).
    destruct (fst (sc k) >? 0).
    + simpl. now rewrite Nat.add_0_r.
    + rewrite IH. pose proof (tries_pos fuel (S k)).
      f_equal. f_equal. lia.
Qed.

Lemma outcome_response fuel :
  forall k code resp,
    snd (outcome (S fuel) sc k code resp)
    = if fst (outcome (S fuel) sc k code resp) >? 0
      then snd (sc (k + (tries (S fuel) sc k - 1))%nat)
      else resp.
Proof.
  induction fuel as [|fuel IH]; intros k code resp.
  - simpl. destruct (fst (sc k) >? 0) eqn:E; simpl.
    + rewrite E. now rewrite Nat.add_0_r.
    + now rewrite E.
  - change (outcome (S (S fuel)) sc k code resp)
      with (if fst (sc k) >? 0 then sc k
            else outcome (S fuel) sc (S k) (fst (sc k)) resp).
    change (tries (S (S fuel)) sc k)
      with (if fst (sc k) >? 0 then 1%nat else S (tries (S fuel) sc (S k))).
    destruct (fst (sc k) >? 0) eqn:E.
    + rewrite E. simpl. now rewrite Nat.add_0_r.
    + rewrite IH. pose proof (tries_pos fuel (S k)).
      replace (k + (S (tries (S fuel) sc (S k)) - 1))%nat
        with (S k + (tries (S fuel) sc (S k) - 1))%nat by lia.
      reflexivity.
Qed.

Lemma tries_short fuel :
  forall k code resp,
    (tries fuel sc k < fuel)%nat -> fst (outcome fuel sc k code resp) > 0.
Proof.
  induction fuel as [|fuel IH]; intros k code resp; simpl.
  - lia.
  - destruct (fst (sc k) >? 0) eqn:E.
    + intros _. apply Z.lt_gt, Z.gtb_lt. exact E.
    + intros H. apply IH. lia.
Qed.

Lemma outcome_answer fuel :
  forall k j code resp,
    (j < fuel)%nat ->
    (forall i, (i < j)%nat -> fst (sc (k + i)%nat) <= 0) ->
    fst (sc (k + j)%nat) > 0 ->
    outcome fuel sc k code resp = sc (k + j)%nat.
Proof.
  induction fuel as [|fuel IH]; intros k j code resp Hj Hfail Hok.
  - lia.
  - simpl. destruct j as [|j].
    + rewrite Nat.add_0_r in Hok. apply Z.gt_lt, Z.gtb_lt in Hok.
      rewrite Hok. now rewrite Nat.add_0_r.
    + assert (H0 : fst (sc k) <= 0).
      { specialize (Hfail 0%nat). rewrite Nat.add_0_r in Hfail. apply Hfail. lia. }
      rewrite Z.gtb_ltb. apply Z.ltb_ge in H0. rewrite H0.
      replace (k + S j)%nat with (S k + j)%nat in * by lia.
      apply IH; [lia | | exact Hok].
      intros i Hi. replace (S k + i)%nat with (k + S i)%nat by lia.
      apply Hfail. lia.
Qed.

End Script.

(** One iteration of a loop: a round trip is recorded, and the loop either
    returns what the script gave or goes on from the state [s1] reached. *)
Lemma post_loop_step fuel retry endpoint payload code resp s :
  exists s1 : State,
    this s1 = this s
    /\ script (env s1) = script (env s)
    /\ List.length (sent (env s1)) = S (List.length (sent (env s)))
    /\ post_loop (S fuel) retry endpoint payload code resp s
       = if fst (script (env s) (List.length (sent (env s)))) >? 0
         then (script (env s) (List.length (sent (env s))), s1)
         else post_loop fuel (S retry) endpoint payload
                (fst (script (env s) (List.length (sent (env s))))) resp s1.
Proof.
  destruct retry as [|retry];
    cbn -[Z.gtb API_TIMEOUT];
    unfold bind, delay, buildURL, http_round_trip, get_this, ret, bind;
    cbn -[Z.gtb API_TIMEOUT];
    destruct (script (env s) (List.length (sent (env s)))) as [c tx];
    cbn -[Z.gtb API_TIMEOUT];
    destruct (c >? 0);
    eexists; (split; [|split; [|split; [|reflexivity]]]);
    cbn; rewrite ?length_app; cbn; try reflexivity; lia.
Qed.

Lemma get_loop_step fuel retry endpoint code resp s :
  exists s1 : State,
    this s1 = this s
    /\ script (env s1) = script (env s)
    /\ List.length (sent (env s1)) = S (List.length (sent (env s)))
    /\ get_loop (S fuel) retry endpoint code resp s
       = if fst (script (env s) (List.length (sent (env s)))) >? 0
         then (script (env s) (List.length (sent (env s))), s1)
         else get_loop fuel (S retry) endpoint
                (fst (script (env s) (List.length (sent (env s))))) resp s1.
Proof.
  destruct retry as [|retry];
    cbn -[Z.gtb API_TIMEOUT];
    unfold bind, delay, buildURL, http_round_trip, get_this, ret, bind;
    cbn -[Z.gtb API_TIMEOUT];
    destruct (script (env s) (List.length (sent (env s)))) as [c tx];
    cbn -[Z.gtb API_TIMEOUT];
    destruct (c >? 0);
    eexists; (split; [|split; [|split; [|reflexivity]]]);
    cbn; rewrite ?length_app; cbn; try reflexivity; lia.
Qed.

(** The inductive step shared by the two loops: [Hstep] is the equation of
    one iteration, [IH] the statement for one iteration less. *)
Ltac loop_induction_step IH Hstep :=
  let s1 := fresh "s1" in
  let Ht1 := fresh "Ht1" in
  let Hs1 := fresh "Hs1" in
  let Hl1 := fresh "Hl1" in
  let Heq := fresh "Heq" in
  let Hr := fresh "Hr" in
  let Ht := fresh "Ht" in
  let Hs := fresh "Hs" in
  let Hl := fresh "Hl" in
  destruct Hstep as (s1 & Ht1 & Hs1 & Hl1 & Heq);
  rewrite Heq; unfold runs_script; cbn [tries outcome];
  match goal with
  | |- context [fst (script (env ?s) ?k) >? 0] =>
      destruct (fst (script (env s) k) >? 0)
  end;
  [ cbn [fst snd]; repeat split; (assumption || lia)
  | match goal with
    | |- context [post_loop ?f ?r ?e ?p ?c ?rs s1] =>
        destruct (IH r e p c rs s1) as (Hr & Ht & Hs & Hl)
    | |- context [get_loop ?f ?r ?e ?c ?rs s1] =>
        destruct (IH r e c rs s1) as (Hr & Ht & Hs & Hl)
    end;
    rewrite Hr, Ht, Hs, Hl, Hs1, Hl1, Ht1; repeat split; lia ].

Lemma post_loop_runs fuel :
  forall retry endpoint payload code resp s,
    runs_script fuel s code resp (post_loop fuel retry endpoint payload code resp s).
Proof.
  induction fuel as [|fuel IH]; intros retry endpoint payload code resp s.
  - unfold runs_script. cbn. repeat split; lia.
  - pose proof (post_loop_step fuel retry endpoint payload code resp s) as Hstep.
    loop_induction_step IH Hstep.
Qed.

Lemma get_loop_runs fuel :
  forall retry endpoint code resp s,
    runs_script fuel s code resp (get_loop fuel retry endpoint code resp s).
Proof.
  induction fuel as [|fuel IH]; intros retry endpoint code resp s.
  - unfold runs_script. cbn. repeat split; lia.
  - pose proof (get_loop_step fuel retry endpoint code resp s) as Hstep.
    loop_induction_step IH Hstep.
Qed.

Lemma runs_script_policy s resp r :
  runs_script API_MAX_RETRIES s (-1) resp r -> retry_policy s resp r.
Proof.
  intros (Hr & Ht & Hs & Hl).
  assert (Ha : attempts s (snd r)
               = tries API_MAX_RETRIES (script (env s)) (List.length (sent (env s))))
    by (unfold attempts; lia).
  unfold API_MAX_RETRIES in *.
  constructor; unfold status_at, text_at; rewrite ?Ha, ?Hr.
  - rewrite Nat.add_0_r. intros H. split.
    + now apply tries_first.
    + rewrite outcome_first by exact H.
      now destruct (script (env s) (List.length (sent (env s)))).
  - intros j Hj. now apply tries_earlier_failed with (fuel := 3%nat).
  - split; [apply tries_pos | apply tries_le].
  - apply tries_short.
  - apply outcome_last.
  - apply outcome_response.
  - split; assumption.
Qed.

Lemma sendPostRequest_policy endpoint payload response s :
  retry_policy s response (sendPostRequest endpoint payload response s).
Proof. apply runs_script_policy, post_loop_runs. Qed.

Lemma sendGetRequest_policy endpoint response s :
  retry_policy s response (sendGetRequest endpoint response s).
Proof. apply runs_script_policy, get_loop_runs. Qed.

Lemma runs_script_answers s code text resp r :
  runs_script API_MAX_RETRIES s (-1) resp r ->
  answers s code text ->
  fst r = (code, text).
Proof.
  intros (Hr & _) (j & Hj & Hfail & Hcode & Htext & Hpos).
  rewrite Hr. unfold status_at, text_at in *.
  rewrite (outcome_answer _ API_MAX_RETRIES _ j); try assumption.
  - rewrite <- Hcode, <- Htext.
    now destruct (script (env s) (List.length (sent (env s)) + j)%nat).
  - now rewrite Hcode.
Qed.

Lemma sendPostRequest_answers endpoint payload response s code text :
  answers s code text ->
  fst (sendPostRequest endpoint payload response s) = (code, text).
Proof.
  intros H. eapply runs_script_answers; [apply post_loop_runs | exact H].
Qed.

Lemma sendGetRequest_answers endpoint response s code text :
  answers s code text ->
  fst (sendGetRequest endpoint response s) = (code, text).
Proof.
  intros H. eapply runs_script_answers; [apply get_loop_runs | exact H].
Qed.

Lemma sendPostRequest_this endpoint payload response s :
  this (snd (sendPostRequest endpoint payload response s)) = this s.
Proof.
  destruct (post_loop_runs API_MAX_RETRIES 0 endpoint payload (-1) response s)
    as (_ & H & _).
  exact H.
Qed.

Lemma sendGetRequest_this endpoint response s :
  this (snd (sendGetRequest endpoint response s)) = this s.
Proof.
  destruct (get_loop_runs API_MAX_RETRIES 0 endpoint (-1) response s)
    as (_ & H & _).
  exact H.
Qed.

(** C2. When the first round trip of a request brings a definite (positive)
    status, whatever it is, [sendPostRequest] and [sendGetRequest] make no
    second round trip and return that status with its body.  A further round
    trip is made only after one that brought a non-positive status, and a
    request makes at least one and at most three round trips. *)
Theorem retry_short_circuit :
  forall (endpoint payload response : string) (s : State),
    let post := sendPostRequest endpoint payload response s in
    let get := sendGetRequest endpoint response s in
    (status_at s 0 > 0 ->
       attempts s (snd post) = 1%nat
       /\ fst post = (status_at s 0, text_at s 0)
       /\ attempts s (snd get) = 1%nat
       /\ fst get = (status_at s 0, text_at s 0))
    /\ (forall j : nat, (S j < attempts s (snd post))%nat -> status_at s j <= 0)
    /\ (forall j : nat, (S j < attempts s (snd get))%nat -> status_at s j <= 0)
    /\ (1 <= attempts s (snd post) <= 3)%nat
    /\ (1 <= attempts s (snd get) <= 3)%nat.
Proof.
  intros endpoint payload response s post get.
  destruct (sendPostRequest_policy endpoint payload response s)
    as [Pshort Ponly Pbound _ _ _ _].
  destruct (sendGetRequest_policy endpoint response s)
    as [Gshort Gonly Gbound _ _ _ _].
  repeat split;
    try (apply Pshort; assumption); try (apply Gshort; assumption);
    try apply Pbound; try apply Gbound; assumption.
Qed.

Lemma retry_short_circuit_witness :
  let s := fresh_state configured (fun _ => (404, "no such card")) in
  attempts s (snd (sendPostRequest "/p" "{}" "" s)) = 1%nat
  /\ fst (sendPostRequest "/p" "{}" "" s) = (404, "no such card")
  /\ attempts s (snd (sendGetRequest "/p" "" s)) = 1%nat
  /\ fst (sendGetRequest "/p" "" s) = (404, "no such card").
Proof.
  intros s.
  destruct (retry_short_circuit "/p" "{}" "" s) as (Hfirst & _).
  apply Hfirst. reflexivity.
Defined.

(** *** The four operations *)

Section Operations.
Context {codec : Codec}.

Ltac run_request :=
  match goal with
  | |- context [sendPostRequest ?e ?p ?r ?s] =>
      let H := fresh "Hthis" in
      let E := fresh "Ereq" in
      pose proof (sendPostRequest_this e p r s) as H;
      destruct (sendPostRequest e p r s) as [[? ?] ?] eqn:E;
      cbn [fst snd] in H
  | |- context [sendGetRequest ?e ?r ?s] =>
      let H := fresh "Hthis" in
      let E := fresh "Ereq" in
      pose proof (sendGetRequest_this e r s) as H;
      destruct (sendGetRequest e r s) as [[? ?] ?] eqn:E;
      cbn [fst snd] in H
  end.

Ltac split_cases :=
  repeat match goal with
         | |- context [match deserializeJson ?x with _ => _ end] =>
             destruct (deserializeJson x)
         | |- context [if ?b then _ else _] => destruct b
         end.

Lemma recordAttendance_this rfidCode s :
  this (snd (recordAttendance rfidCode s)) = this s.
Proof.
  unfold recordAttendance, bind, get_this, ret.
  destruct (negb (isConfigured (this s))); [reflexivity|].
  run_request. split_cases; exact Hthis.
Qed.

Lemma processPairing_this rfidCode s :
  this (snd (processPairing rfidCode s)) = this s.
Proof.
  unfold processPairing, bind, get_this, ret.
  destruct (negb (isConfigured (this s))); [reflexivity|].
  run_request. split_cases; exact Hthis.
Qed.

Lemma checkPairingStatus_this s :
  this (snd (checkPairingStatus s)) = this s.
Proof.
  unfold checkPairingStatus, bind, get_this, ret.
  destruct (negb (isConfigured (this s)) || (deviceId (this s) =? 0));
    [reflexivity|].
  run_request. split_cases; exact Hthis.
Qed.

(** [validateAPIKey] writes the device identifier exactly when the result it
    returns is valid with a positive identifier, and then writes that one. *)
Lemma validateAPIKey_deviceId s :
  if ValidationResponse.valid (fst (validateAPIKey s))
     && (ValidationResponse.deviceId (fst (validateAPIKey s)) >? 0)
  then deviceId (this (snd (validateAPIKey s)))
       = ValidationResponse.deviceId (fst (validateAPIKey s))
  else this (snd (validateAPIKey s)) = this s.
Proof.
  unfold validateAPIKey, bind, get_this, ret, put_deviceId.
  destruct (negb (isConfigured (this s))); [reflexivity|].
  run_request.
  destruct (z =? 200); [|exact Hthis].
  destruct (deserializeJson s0) as [doc|]; [|exact Hthis].
  destruct (or_bool (getMember "success" doc) false); [|exact Hthis].
  cbv zeta.
  destruct (or_bool (getMember "valid" (as_JsonObject (getMember "data" doc))) false
            && (to_uint32 (or_int (getMember "device_id"
                                     (as_JsonObject (getMember "data" doc))) 0) >? 0))
    eqn:E; cbn [fst snd ValidationResponse.valid ValidationResponse.deviceId];
    rewrite E; [reflexivity | exact Hthis].
Qed.

(** The request of an operation, once the network answers it. *)
Ltac answered Hans :=
  match goal with
  | |- context [sendPostRequest ?e ?p ?r ?s] =>
      let H := fresh "Hans" in
      pose proof (sendPostRequest_answers e p r s _ _ Hans) as H;
      destruct (sendPostRequest e p r s) as [[? ?] ?];
      cbn [fst] in H; injection H as -> ->
  | |- context [sendGetRequest ?e ?r ?s] =>
      let H := fresh "Hans" in
      pose proof (sendGetRequest_answers e r s _ _ Hans) as H;
      destruct (sendGetRequest e r s) as [[? ?] ?];
      cbn [fst] in H; injection H as -> ->
  end.

(** C1. For a configured client whose attendance request is answered with
    status 200 and a body that parses, a non-empty [data.student_name] makes
    [recordAttendance] return [success = true], whatever the top-level and the
    nested success flags are (false, absent, or of another type). *)
Theorem attendance_name_implies_success :
  forall (rfidCode body : string) (doc : JsonVariant) (s : State),
    isConfigured (this s) = true ->
    answers s 200 body ->
    deserializeJson body = Some doc ->
    or_cstr (getMember "student_name" (as_JsonObject (getMember "data" doc))) ""
    <> "" ->
    AttendanceResponse.success (fst (recordAttendance rfidCode s)) = true
    /\ AttendanceResponse.studentName (fst (recordAttendance rfidCode s))
       = or_cstr (getMember "student_name" (as_JsonObject (getMember "data" doc))) "".
Proof.
  intros rfidCode body doc s Hconf Hans Hdoc Hname.
  unfold recordAttendance, bind, get_this. rewrite Hconf. cbn [negb].
  answered Hans.
  cbn [Z.eqb Pos.eqb]. rewrite Hdoc. cbv zeta.
  apply nonempty_length in Hname. rewrite Hname.
  split; reflexivity.
Qed.

(** C3, as the code has it. While the client is not configured,
    [validateAPIKey], [recordAttendance] and [processPairing] return
    [success = false] with the message "API not configured", and
    [checkPairingStatus] returns the zero outcome, whose message is empty.
    None of the four attempts a round trip, and each leaves the client and
    its surroundings exactly as they were. *)
Theorem unconfigured_fails_fast :
  forall (rfidCode : string) (s : State),
    isConfigured (this s) = false ->
    validateAPIKey s
    = (ValidationResponse.mk false false 0 0 "API not configured", s)
    /\ recordAttendance rfidCode s
       = (AttendanceResponse.mk false "" "" "API not configured" "", s)
    /\ processPairing rfidCode s
       = (PairingResponse.mk false "" "API not configured" false, s)
    /\ checkPairingStatus s = (PairingResponse.mk false "" "" false, s)
    /\ attempts s (snd (validateAPIKey s)) = 0%nat
    /\ attempts s (snd (recordAttendance rfidCode s)) = 0%nat
    /\ attempts s (snd (processPairing rfidCode s)) = 0%nat
    /\ attempts s (snd (checkPairingStatus s)) = 0%nat.
Proof.
  intros rfidCode s Hconf.
  unfold validateAPIKey, recordAttendance, processPairing, checkPairingStatus,
    bind, get_this, ret, attempts.
  rewrite Hconf. cbn [negb orb fst snd].
  repeat split; apply Nat.sub_diag.
Qed.

(** C9, as the code has it. For a configured client whose validation request
    is answered with status 200 and a body that does not parse,
    [validateAPIKey] returns [success = false] with the message
    "JSON parse error", and the client is left as it was. *)
Theorem validate_malformed_body :
  forall (body : string) (s : State),
    isConfigured (this s) = true ->
    answers s 200 body ->
    deserializeJson body = None ->
    fst (validateAPIKey s)
    = ValidationResponse.mk false false 0 0 "JSON parse error"
    /\ this (snd (validateAPIKey s)) = this s.
Proof.
  intros body s Hconf Hans Hdoc.
  pose proof (validateAPIKey_deviceId s) as Hdev.
  assert (Hres : fst (validateAPIKey s)
                 = ValidationResponse.mk false false 0 0 "JSON parse error").
  { unfold validateAPIKey, bind, get_this. rewrite Hconf. cbn [negb].
    answered Hans. cbn [Z.eqb Pos.eqb]. rewrite Hdoc. reflexivity. }
  split; [exact Hres|].
  rewrite Hres in Hdev. exact Hdev.
Qed.

(** C8, as the code has it. For a configured client that has learned a device
    identifier and whose status query is answered with a definite status:
    at status 200 with a body that parses and whose top-level success flag is
    true, the outcome carries [sessionActive = data.active] and
    [studentName = data.student_name]; at status 200 with a body that parses
    and whose top-level flag is not true, the nested section is not read and
    the outcome is the zero outcome; with a body that does not parse, the
    outcome is the zero outcome as well. *)
Theorem pairing_status_decoding :
  forall (code : Z) (body : string) (s : State),
    isConfigured (this s) = true ->
    deviceId (this s) <> 0 ->
    answers s code body ->
    (code = 200 ->
     forall doc : JsonVariant,
       deserializeJson body = Some doc ->
       let data := as_JsonObject (getMember "data" doc) in
       if or_bool (getMember "success" doc) false
       then fst (checkPairingStatus s)
            = PairingResponse.mk true
                (or_cstr (getMember "student_name" data) "") ""
                (or_bool (getMember "active" data) false)
       else fst (checkPairingStatus s) = PairingResponse.mk false "" "" false)
    /\ (deserializeJson body = None ->
        fst (checkPairingStatus s) = PairingResponse.mk false "" "" false).
Proof.
  intros code body s Hconf Hdev Hans.
  apply Z.eqb_neq in Hdev.
  split.
  - intros -> doc Hdoc data. subst data.
    unfold checkPairingStatus, bind, get_this. rewrite Hconf, Hdev. cbn [negb orb].
    answered Hans. cbn [Z.eqb Pos.eqb]. rewrite Hdoc. cbv zeta.
    destruct (or_bool (getMember "success" doc) false); [|reflexivity].
    cbn [andb].
    destruct (containsKey "data" doc) eqn:Ekey; [reflexivity|].
    (* no [data] member: the nested section reads as null, all defaults *)
    assert (Hnull : getMember "data" doc = JNull).
    { unfold containsKey in Ekey. unfold getMember.
      destruct doc; try reflexivity.
      destruct (lookup "data" members); [discriminate | reflexivity]. }
    rewrite Hnull. reflexivity.
  - intros Hdoc.
    unfold checkPairingStatus, bind, get_this. rewrite Hconf, Hdev. cbn [negb orb].
    answered Hans. rewrite Hdoc.
    destruct (code =? 200); reflexivity.
Qed.

Lemma run_call_frame call s :
  writes_deviceId call = false ->
  deviceId (this (run_call call s)) = deviceId (this s).
Proof.
  destruct call; cbn [writes_deviceId run_call]; intros H; try discriminate H.
  - reflexivity.
  - now rewrite recordAttendance_this.
  - now rewrite processPairing_this.
  - now rewrite checkPairingStatus_this.
Qed.

Lemma run_call_keeps_learned call s :
  is_setter call = false ->
  deviceId (this s) <> 0 ->
  deviceId (this (run_call call s)) <> 0.
Proof.
  destruct call; cbn [is_setter]; intros H Hdev; try discriminate H;
    try (rewrite run_call_frame by reflexivity; exact Hdev).
  cbn [run_call]. pose proof (validateAPIKey_deviceId s) as Hv.
  destruct (ValidationResponse.valid (fst (validateAPIKey s))
            && (ValidationResponse.deviceId (fst (validateAPIKey s)) >? 0)) eqn:E.
  - apply andb_true_iff in E. destruct E as [_ E].
    rewrite Z.gtb_ltb in E. apply Z.ltb_lt in E. lia.
  - now rewrite Hv.
Qed.

(** C7, as the code has it. The device identifier of a new client is zero.
    [validateAPIKey] assigns it on every validation whose result is valid with
    a positive identifier (a later one overwrites what an earlier one stored)
    and on no other.  No sequence of calls of [begin], [recordAttendance],
    [processPairing] and [checkPairingStatus] changes it, and no sequence of
    calls without [setDeviceId] brings a learned identifier back to zero.
    [setDeviceId] can set it to any value: after [setDeviceId id] the
    identifier is [id] as a 32-bit unsigned value, so [id] itself for every
    [0 <= id < 2^32], zero included; it touches nothing else. *)
Theorem learned_deviceId_lifecycle :
  deviceId new = 0
  /\ (forall s : State,
        if ValidationResponse.valid (fst (validateAPIKey s))
           && (ValidationResponse.deviceId (fst (validateAPIKey s)) >? 0)
        then deviceId (this (snd (validateAPIKey s)))
             = ValidationResponse.deviceId (fst (validateAPIKey s))
        else this (snd (validateAPIKey s)) = this s)
  /\ (forall (calls : list Call) (s : State),
        existsb writes_deviceId calls = false ->
        deviceId (this (run_calls calls s)) = deviceId (this s))
  /\ (forall (calls : list Call) (s : State),
        existsb is_setter calls = false ->
        deviceId (this s) <> 0 ->
        deviceId (this (run_calls calls s)) <> 0)
  /\ (forall (id : Z) (c : t),
        getDeviceId (setDeviceId id c) = to_uint32 id
        /\ serverUrl (setDeviceId id c) = serverUrl c
        /\ apiKey (setDeviceId id c) = apiKey c)
  /\ (forall (id : Z) (s : State),
        0 <= id < ULONG_MODULUS ->
        getDeviceId (this (run_call (CallSetDeviceId id) s)) = id
        /\ env (run_call (CallSetDeviceId id) s) = env s).
Proof.
  split; [reflexivity|].
  split; [exact validateAPIKey_deviceId|].
  split; [|split; [|split]].
  - induction calls as [|call calls IH]; intros s H; [reflexivity|].
    cbn in H. apply orb_false_iff in H. destruct H as [Hc Hcs].
    unfold run_calls in *. cbn [fold_left].
    rewrite IH by exact Hcs. now apply run_call_frame.
  - induction calls as [|call calls IH]; intros s H Hdev; [exact Hdev|].
    cbn in H. apply orb_false_iff in H. destruct H as [Hc Hcs].
    unfold run_calls in *. cbn [fold_left].
    apply IH; [exact Hcs|]. now apply run_call_keeps_learned.
  - intros id c. repeat split.
  - intros id s Hid. cbn [run_call lift this env setDeviceId getDeviceId deviceId].
    split; [now apply to_uint32_small | reflexivity].
Qed.

End Operations.

(** *** Worked examples *)

Lemma answers_first s code text :
  status_at s 0 = code -> text_at s 0 = text -> code > 0 -> answers s code text.
Proof.
  intros Hc Ht Hpos. exists 0%nat.
  repeat split; try assumption.
  - unfold API_MAX_RETRIES. lia.
  - intros i Hi. lia.
Qed.

Lemma attendance_name_implies_success_witness :
  let codec := table_codec [("reply", attendance_doc_flags_false)] in
  let s := fresh_state configured (fun _ => (200, "reply")) in
  AttendanceResponse.success (fst (@recordAttendance codec "04A1B2C3" s)) = true
  /\ AttendanceResponse.studentName (fst (@recordAttendance codec "04A1B2C3" s))
     = "Alice".
Proof.
  intros codec s.
  apply (@attendance_name_implies_success codec "04A1B2C3" "reply"
           attendance_doc_flags_false s).
  - reflexivity.
  - apply answers_first; reflexivity.
  - reflexivity.
  - discriminate.
Defined.

Lemma unconfigured_fails_fast_witness :
  let codec := table_codec [] in
  let s := fresh_state new (fun _ => (200, "reply")) in
  @validateAPIKey codec s
  = (ValidationResponse.mk false false 0 0 "API not configured", s)
  /\ @checkPairingStatus codec s = (PairingResponse.mk false "" "" false, s).
Proof.
  intros codec s.
  destruct (@unconfigured_fails_fast codec "04A1B2C3" s eq_refl)
    as (Hv & _ & _ & Hs & _).
  split; [exact Hv | exact Hs].
Defined.

(** C3 as stated fails for [checkPairingStatus]: on a client that is not
    configured its outcome carries an empty message, not the configuration
    error the other three operations give. *)
Lemma checkPairingStatus_unconfigured_counterexample :
  let codec := table_codec [] in
  let s := fresh_state new (fun _ => (200, "reply")) in
  isConfigured (this s) = false
  /\ PairingResponse.message (fst (@checkPairingStatus codec s)) = ""
  /\ PairingResponse.message (fst (@checkPairingStatus codec s))
     <> "API not configured"
  /\ PairingResponse.message (fst (@processPairing codec "04A1B2C3" s))
     = "API not configured".
Proof.
  cbv zeta. repeat split. discriminate.
Qed.

Lemma validate_malformed_body_witness :
  let codec := table_codec [] in
  let s := fresh_state configured (fun _ => (200, "<html>")) in
  fst (@validateAPIKey codec s)
  = ValidationResponse.mk false false 0 0 "JSON parse error"
  /\ this (snd (@validateAPIKey codec s)) = this s.
Proof.
  intros codec s.
  apply (@validate_malformed_body codec "<html>" s).
  - reflexivity.
  - apply answers_first; reflexivity.
  - reflexivity.
Defined.

(** C9 as stated fails on the text of the message: a 200 response whose body
    does not parse is reported as "JSON parse error". *)
Lemma validate_malformed_body_counterexample :
  let codec := table_codec [] in
  let s := fresh_state configured (fun _ => (200, "<html>")) in
  fst (sendPostRequest "/api/v1/public/devices/validate-key" "{}" "" s)
  = (200, "<html>")
  /\ @deserializeJson codec "<html>" = None
  /\ ValidationResponse.success (fst (@validateAPIKey codec s)) = false
  /\ ValidationResponse.message (fst (@validateAPIKey codec s)) = "JSON parse error"
  /\ ValidationResponse.message (fst (@validateAPIKey codec s)) <> "decode error".
Proof.
  cbv zeta. repeat split. discriminate.
Qed.

Lemma pairing_status_decoding_witness :
  let codec := table_codec [("reply", status_doc true true "Alice")] in
  let s := fresh_state (setDeviceId 5 configured) (fun _ => (200, "reply")) in
  fst (@checkPairingStatus codec s) = PairingResponse.mk true "Alice" "" true.
Proof.
  intros codec s.
  assert (Hconf : isConfigured (this s) = true) by reflexivity.
  assert (Hdev : deviceId (this s) <> 0) by discriminate.
  assert (Hans : answers s 200 "reply") by (apply answers_first; reflexivity).
  destruct (@pairing_status_decoding codec 200 "reply" s Hconf Hdev Hans)
    as (Hok & _).
  exact (Hok eq_refl (status_doc true true "Alice") eq_refl).
Defined.

(** C8 as stated fails when the top-level success flag is not true: the
    nested section is then not read, so an active session in [data] is
    reported as inactive and without a name. *)
Lemma pairing_status_flag_counterexample :
  let doc := status_doc false true "Alice" in
  let data := as_JsonObject (getMember "data" doc) in
  let codec := table_codec [("reply", doc)] in
  let s := fresh_state (setDeviceId 5 configured) (fun _ => (200, "reply")) in
  fst (sendGetRequest "/api/v1/public/pairing/status/5" "" s) = (200, "reply")
  /\ @deserializeJson codec "reply" = Some doc
  /\ or_bool (getMember "active" data) false = true
  /\ or_cstr (getMember "student_name" data) "" = "Alice"
  /\ PairingResponse.sessionActive (fst (@checkPairingStatus codec s)) = false
  /\ PairingResponse.studentName (fst (@checkPairingStatus codec s)) = "".
Proof.
  cbv zeta. repeat split.
Qed.

Lemma learned_deviceId_lifecycle_witness :
  let codec := table_codec [("reply", validation_doc 7)] in
  let s := fresh_state (setDeviceId 7 configured) (fun _ => (200, "reply")) in
  deviceId (this (@run_calls codec
                    [CallRecordAttendance "04A1B2C3"; CallCheckPairingStatus;
                     CallBegin "http://school.local" "key-2";
                     CallProcessPairing "04A1B2C3"] s)) = 7
  /\ deviceId (this (@run_calls codec
                       [CallValidateAPIKey; CallCheckPairingStatus] s)) <> 0
  /\ getDeviceId (this (@run_call codec (CallSetDeviceId 9) s)) = 9
  /\ getDeviceId (this (@run_call codec (CallSetDeviceId 0) s)) = 0.
Proof.
  intros codec s.
  destruct (@learned_deviceId_lifecycle codec)
    as (_ & _ & Hframe & Hkeep & _ & Hset).
  split; [|split; [|split]].
  - rewrite Hframe; reflexivity.
  - apply Hkeep; [reflexivity | discriminate].
  - apply Hset. unfold ULONG_MODULUS. lia.
  - apply Hset. unfold ULONG_MODULUS. lia.
Defined.

(** C7 as stated fails: the identifier is not written once only.  A second
    valid validation that carries another identifier replaces the first one,
    and the public setter can bring it back to zero. *)
Lemma deviceId_rewritten_counterexample :
  let codec := table_codec [("first", validation_doc 7);
                            ("second", validation_doc 9)] in
  let s0 := fresh_state configured
              (fun n => match n with
                        | O => (200, "first")
                        | _ => (200, "second")
                        end) in
  let s1 := @run_call codec CallValidateAPIKey s0 in
  let s2 := @run_call codec CallValidateAPIKey s1 in
  let s3 := @run_call codec (CallSetDeviceId 0) s2 in
  getDeviceId (this s0) = 0
  /\ getDeviceId (this s1) = 7
  /\ getDeviceId (this s2) = 9
  /\ getDeviceId (this s3) = 0.
Proof.
  cbv zeta. repeat split.
Qed.

End APIClientFacts.

(** ** More on the device state machine *)

Module StateMachineMore.
Import Arduino ArduinoFacts StateMachine StateMachineFacts StateMachineCalls.

(** The mode predicates partition the modes as a caller expects: a
    machine is never both in an error mode and ready for a card, a machine in
    pairing mode is ready for a card, [enterPairingMode] always leaves a
    machine that is in pairing mode and ready, and [exitPairingMode] one that
    is ready, not in pairing mode and not in error. *)
Theorem mode_predicates :
  forall (sm : t) (now : Z) (name : string),
    isInErrorState sm && isReadyForCard sm = false
    /\ implb (isInPairingMode sm) (isReadyForCard sm) = true
    /\ isInPairingMode (enterPairingMode now name sm) = true
    /\ isReadyForCard (enterPairingMode now name sm) = true
    /\ isInErrorState (enterPairingMode now name sm) = false
    /\ isReadyForCard (exitPairingMode now sm) = true
    /\ isInPairingMode (exitPairingMode now sm) = false
    /\ isInErrorState (exitPairingMode now sm) = false.
Proof.
  intros sm now name.
  unfold isInErrorState, isReadyForCard, isInPairingMode,
    enterPairingMode, exitPairingMode.
  rewrite !setState_current.
  split; [|split]; [destruct (currentState sm); reflexivity ..|].
  repeat split.
Qed.




(** X2. An accepted transition records where it came from: [setState m] from
    another mode makes the old mode the previous one and stamps the entry
    with the counter value, so that after two transitions in a row the
    previous mode is the target of the first. *)
Theorem transition_records_origin :
  forall (sm : t) (m : DeviceState) (now : Z),
    m <> currentState sm ->
    currentState (setState now m sm) = m
    /\ previousState (setState now m sm) = currentState sm
    /\ stateEnteredAt (setState now m sm) = millis now
    /\ (forall (m' : DeviceState) (now' : Z),
          m' <> m ->
          previousState (setState now' m' (setState now m sm)) = m).
Proof.
  intros sm m now Hne.
  assert (E : DeviceState_eqb m (currentState sm) = false)
    by now apply DeviceState_eqb_neq.
  unfold setState at 1 2 3. rewrite E. cbn.
  repeat split.
  intros m' now' Hne'.
  unfold setState at 1. rewrite setState_current.
  apply DeviceState_eqb_neq in Hne'. rewrite Hne'. reflexivity.
Qed.

Lemma transition_records_origin_witness :
  previousState (setState 2000 IDLE (setState 1000 VALIDATING_API new))
  = VALIDATING_API.
Proof.
  assert (Hne : VALIDATING_API <> currentState new) by discriminate.
  destruct (transition_records_origin new VALIDATING_API 1000 Hne)
    as (_ & _ & _ & Hnext).
  apply Hnext. discriminate.
Defined.

(** The diagnostic label identifies the mode: two machines with the same
    label are in the same mode. *)
Theorem getStateName_injective :
  forall sm1 sm2 : t,
    getStateName sm1 = getStateName sm2 -> currentState sm1 = currentState sm2.
Proof.
  intros sm1 sm2. unfold getStateName.
  destruct (currentState sm1), (currentState sm2);
    intros H; try reflexivity; discriminate H.
Qed.

Lemma getStateName_injective_witness :
  currentState (setState 10 IDLE new)
  = currentState (exitPairingMode 20 (enterPairingMode 15 "Alice" new)).
Proof.
  apply getStateName_injective. reflexivity.
Defined.

(** X3. [enterPairingMode] on a machine that is already in pairing mode
    replaces the identity but does not restart the clock of the mode: entry
    timestamp, previous mode, dwell time and every timeout answer stay as
    they were. *)
Theorem reenter_pairing_keeps_clock :
  forall (sm : t) (now : Z) (name : string),
    currentState sm = PAIRING_MODE ->
    getCurrentStudentName (enterPairingMode now name sm) = name
    /\ stateEnteredAt (enterPairingMode now name sm) = stateEnteredAt sm
    /\ previousState (enterPairingMode now name sm) = previousState sm
    /\ (forall t : Z,
          getTimeInState t (enterPairingMode now name sm) = getTimeInState t sm)
    /\ (forall t T : Z,
          hasTimedOut t T (enterPairingMode now name sm) = hasTimedOut t T sm).
Proof.
  intros sm now name Hp.
  unfold enterPairingMode, setState, hasTimedOut, getTimeInState,
    getCurrentStudentName.
  cbn [currentState]. rewrite Hp. cbn. repeat split.
Qed.

Lemma reenter_pairing_keeps_clock_witness :
  let sm := enterPairingMode 1000 "Alice" new in
  getCurrentStudentName (enterPairingMode 20000 "Budi" sm) = "Budi"
  /\ stateEnteredAt (enterPairingMode 20000 "Budi" sm) = 1000.
Proof.
  intros sm.
  destruct (reenter_pairing_keeps_clock sm 20000 "Budi" eq_refl)
    as (Hname & Hat & _).
  split; [exact Hname | rewrite Hat; reflexivity].
Defined.

(** X4. [setState] never touches the pairing identity: over any run of
    [setState] calls it stays what it was.  In particular a machine that
    leaves pairing mode through [setState] rather than [exitPairingMode]
    still reports the identity of the closed session. *)
Theorem setState_keeps_identity :
  forall (calls : list Call) (sm : t),
    forallb is_set_state calls = true ->
    getCurrentStudentName (run_calls calls sm) = getCurrentStudentName sm.
Proof.
  unfold getCurrentStudentName.
  induction calls as [|call calls IH]; intros sm H; [reflexivity|].
  cbn in H. apply andb_true_iff in H. destruct H as [Hc Hcs].
  unfold run_calls in *. cbn [fold_left]. rewrite IH by exact Hcs.
  destruct call; try discriminate Hc. cbn [run_call]. apply setState_name.
Qed.

Lemma setState_keeps_identity_witness :
  let sm := enterPairingMode 1000 "Alice" new in
  getCurrentStudentName
    (run_calls [CallSetState 5000 IDLE; CallSetState 6000 PROCESSING_CARD] sm)
  = "Alice"
  /\ getState
       (run_calls [CallSetState 5000 IDLE; CallSetState 6000 PROCESSING_CARD] sm)
     = PROCESSING_CARD.
Proof.
  intros sm. split.
  - rewrite setState_keeps_identity; reflexivity.
  - reflexivity.
Defined.

End StateMachineMore.

(** ** Strings *)

Module ArduinoStringFacts.
Import Arduino ArduinoString.

Lemma length_append (s1 s2 : string) :
  String.length (s1 ++ s2) = (String.length s1 + String.length s2)%nat.
Proof. induction s1 as [|c s1 IH]; cbn; [reflexivity | now rewrite IH]. Qed.

Lemma append_nil_r (s : string) : (s ++ "")%string = s.
Proof. induction s as [|c s IH]; cbn; [reflexivity | now rewrite IH]. Qed.

Lemma append_assoc (s1 s2 s3 : string) :
  ((s1 ++ s2) ++ s3)%string = (s1 ++ (s2 ++ s3))%string.
Proof. induction s1 as [|c s1 IH]; cbn; [reflexivity | now rewrite IH]. Qed.

Lemma substring_0_0 (s : string) : substring 0 0 s = "".
Proof. destruct s; reflexivity. Qed.

Lemma substring_0_append (u v : string) :
  substring 0 (String.length u) (u ++ v) = u.
Proof.
  induction u as [|c u IH]; cbn.
  - apply substring_0_0.
  - now rewrite IH.
Qed.

Lemma length_substring_0 (n : nat) :
  forall s, String.length (substring 0 n s) = Nat.min n (String.length s).
Proof.
  induction n as [|n IH]; intros s.
  - now rewrite substring_0_0.
  - destruct s as [|c s]; cbn; [reflexivity | now rewrite IH].
Qed.

Lemma substring_0_all (n : nat) :
  forall s, (String.length s <= n)%nat -> substring 0 n s = s.
Proof.
  induction n as [|n IH]; intros s H.
  - destruct s; [reflexivity | cbn in H; lia].
  - destruct s as [|c s]; cbn; [reflexivity|].
    rewrite IH; [reflexivity | cbn in H; lia].
Qed.

Lemma substring_0_prefix (n : nat) :
  forall s, exists rest, s = (substring 0 n s ++ rest)%string.
Proof.
  induction n as [|n IH]; intros s.
  - exists s. now rewrite substring_0_0.
  - destruct s as [|c s]; cbn.
    + now exists "".
    + destruct (IH s) as (rest & H). exists rest. now rewrite <- H.
Qed.

Lemma substring_last_append (u : string) (c : ascii) :
  substring (String.length u) 1 (u ++ String c "") = String c "".
Proof. induction u as [|d u IH]; cbn; [reflexivity | exact IH]. Qed.

Lemma endsWith_append_char (u : string) (c : ascii) :
  endsWith (u ++ String c "") (String c "") = true.
Proof.
  unfold endsWith. rewrite length_append. cbn [String.length].
  replace (String.length u + 1 - 1)%nat with (String.length u) by lia.
  rewrite substring_last_append, String.eqb_refl.
  replace (1 <=? String.length u + 1)%nat with true; [reflexivity|].
  symmetry. apply Nat.leb_le. lia.
Qed.

Lemma endsWith_char_inv (c : ascii) :
  forall u, endsWith u (String c "") = true -> exists v, u = (v ++ String c "")%string.
Proof.
  induction u as [|d u IH]; unfold endsWith; cbn [String.length].
  - discriminate.
  - intros H. apply andb_true_iff in H. destruct H as [_ H].
    destruct u as [|e u].
    + cbn [String.length Nat.sub substring] in H.
      apply String.eqb_eq in H. exists "". exact H.
    + cbn [String.length Nat.sub] in H.
      change (substring (S (String.length u)) 1 (String d (String e u)))
        with (substring (String.length u) 1 (String e u)) in H.
      destruct IH as (v & Hv).
      { unfold endsWith. cbn [String.length Nat.sub Nat.leb andb].
        rewrite Nat.sub_0_r. exact H. }
      exists (String d v). cbn. now rewrite <- Hv.
Qed.

Lemma length_toUpperCase (s : string) :
  String.length (toUpperCase s) = String.length s.
Proof. induction s as [|c s IH]; cbn; [reflexivity | now rewrite IH]. Qed.

Lemma toUpperCase_append (s1 s2 : string) :
  toUpperCase (s1 ++ s2) = (toUpperCase s1 ++ toUpperCase s2)%string.
Proof. induction s1 as [|c s1 IH]; cbn; [reflexivity | now rewrite IH]. Qed.

Lemma length_string_of_list_ascii (l : list ascii) :
  String.length (string_of_list_ascii l) = List.length l.
Proof. induction l as [|c l IH]; cbn; [reflexivity | now rewrite IH]. Qed.

Lemma length_list_ascii_of_string (s : string) :
  List.length (list_ascii_of_string s) = String.length s.
Proof. induction s as [|c s IH]; cbn; [reflexivity | now rewrite IH]. Qed.

Lemma string_of_list_ascii_app (l1 l2 : list ascii) :
  string_of_list_ascii (l1 ++ l2)
  = (string_of_list_ascii l1 ++ string_of_list_ascii l2)%string.
Proof. induction l1 as [|c l1 IH]; cbn; [reflexivity | now rewrite IH]. Qed.

Lemma strlcpy_length (src : string) (size : nat) :
  (0 < size)%nat -> (String.length (strlcpy src size) < size)%nat.
Proof. intros H. unfold strlcpy. rewrite length_substring_0. lia. Qed.

Lemma strlcpy_fits (src : string) (size : nat) :
  (String.length src < size)%nat -> strlcpy src size = src.
Proof. intros H. unfold strlcpy. apply substring_0_all. lia. Qed.

Lemma strlcpy_nonempty (src : string) (size : nat) :
  (2 <= size)%nat -> nonempty (strlcpy src size) = nonempty src.
Proof.
  intros H. unfold strlcpy.
  destruct size as [|[|size]]; try lia.
  destruct src; reflexivity.
Qed.

End ArduinoStringFacts.

(** ** More on the API client *)

Module APIClientMore.
Import Arduino ArduinoFacts ArduinoString ArduinoStringFacts.
Import ArduinoJson APIClient APIClientFacts.

(** *** What a request puts on the wire and how long it pauses *)

Lemma tries_S fuel sc k :
  tries (S fuel) sc k
  = if fst (sc k) >? 0 then 1%nat else S (tries fuel sc (S k)).
Proof. reflexivity. Qed.

Lemma post_loop_effects fuel :
  forall retry endpoint payload code resp s,
    let r := post_loop fuel retry endpoint payload code resp s in
    let n := tries fuel (script (env s)) (List.length (sent (env s))) in
    sent (env (snd r))
    = (sent (env s)
       ++ repeat (mkRequest POST (serverUrl (this s) ++ endpoint) API_TIMEOUT payload) n)%list
    /\ delayed (env (snd r))
       = delayed (env s) + 100 * Z.of_nat n
         + 1000 * Z.of_nat (match retry with O => Nat.pred n | S _ => n end).
Proof.
  induction fuel as [|fuel IH]; intros retry endpoint payload code resp s.
  - cbn. rewrite app_nil_r. split; [reflexivity|]. destruct retry; cbn; lia.
  - cbv zeta. rewrite tries_S.
    destruct retry as [|retry];
      cbn -[Z.gtb API_TIMEOUT Z.mul Z.of_nat tries repeat];
      unfold bind, delay, buildURL, http_round_trip, get_this, ret, bind;
      cbn -[Z.gtb API_TIMEOUT Z.mul Z.of_nat tries repeat];
      destruct (script (env s) (List.length (sent (env s)))) as [c tx];
      cbn -[Z.gtb API_TIMEOUT Z.mul Z.of_nat tries repeat];
      (destruct (c >? 0);
       [ cbn -[Z.gtb API_TIMEOUT Z.mul]; split; [reflexivity | lia]
       | match goal with
         | |- context [post_loop fuel ?r ?e ?p ?c0 ?rs ?s1] =>
             destruct (IH r e p c0 rs s1) as (Hs & Hd)
         end;
         cbn [this env script sent delayed] in Hs, Hd;
         rewrite length_app in Hs, Hd; cbn [List.length] in Hs, Hd;
         rewrite Nat.add_1_r in Hs, Hd;
         rewrite Hs, Hd; split;
         [ rewrite <- app_assoc; reflexivity
         | cbn [Nat.pred]; lia ] ]).
Qed.

Lemma get_loop_effects fuel :
  forall retry endpoint code resp s,
    let r := get_loop fuel retry endpoint code resp s in
    let n := tries fuel (script (env s)) (List.length (sent (env s))) in
    sent (env (snd r))
    = (sent (env s)
       ++ repeat (mkRequest GET (serverUrl (this s) ++ endpoint) API_TIMEOUT "") n)%list
    /\ delayed (env (snd r))
       = delayed (env s)
         + 500 * Z.of_nat (match retry with O => Nat.pred n | S _ => n end).
Proof.
  induction fuel as [|fuel IH]; intros retry endpoint code resp s.
  - cbn. rewrite app_nil_r. split; [reflexivity|]. destruct retry; cbn; lia.
  - cbv zeta. rewrite tries_S.
    destruct retry as [|retry];
      cbn -[Z.gtb API_TIMEOUT Z.mul Z.of_nat tries repeat];
      unfold bind, delay, buildURL, http_round_trip, get_this, ret, bind;
      cbn -[Z.gtb API_TIMEOUT Z.mul Z.of_nat tries repeat];
      destruct (script (env s) (List.length (sent (env s)))) as [c tx];
      cbn -[Z.gtb API_TIMEOUT Z.mul Z.of_nat tries repeat];
      (destruct (c >? 0);
       [ cbn -[Z.gtb API_TIMEOUT Z.mul]; split; [reflexivity | lia]
       | match goal with
         | |- context [get_loop fuel ?r ?e ?c0 ?rs ?s1] =>
             destruct (IH r e c0 rs s1) as (Hs & Hd)
         end;
         cbn [this env script sent delayed] in Hs, Hd;
         rewrite length_app in Hs, Hd; cbn [List.length] in Hs, Hd;
         rewrite Nat.add_1_r in Hs, Hd;
         rewrite Hs, Hd; split;
         [ rewrite <- app_assoc; reflexivity
         | cbn [Nat.pred]; lia ] ]).
Qed.

Lemma attempts_tries_post endpoint payload response s :
  attempts s (snd (sendPostRequest endpoint payload response s))
  = tries API_MAX_RETRIES (script (env s)) (List.length (sent (env s))).
Proof.
  destruct (post_loop_runs API_MAX_RETRIES 0 endpoint payload (-1) response s)
    as (_ & _ & _ & Hl).
  unfold attempts, sendPostRequest. lia.
Qed.

Lemma attempts_tries_get endpoint response s :
  attempts s (snd (sendGetRequest endpoint response s))
  = tries API_MAX_RETRIES (script (env s)) (List.length (sent (env s))).
Proof.
  destruct (get_loop_runs API_MAX_RETRIES 0 endpoint (-1) response s)
    as (_ & _ & _ & Hl).
  unfold attempts, sendGetRequest. lia.
Qed.

(** X5. Every round trip of one request puts the same thing on the wire: the
    method, the server URL followed by the endpoint, the timeout of 5000 ms
    and the payload (none for a GET).  The requests recorded before are kept,
    and nothing else is sent. *)
Theorem request_repeats_same_round_trip :
  forall (endpoint payload response : string) (s : State),
    let post := sendPostRequest endpoint payload response s in
    let get := sendGetRequest endpoint response s in
    sent (env (snd post))
    = (sent (env s)
       ++ repeat (mkRequest POST (serverUrl (this s) ++ endpoint) 5000 payload)
            (attempts s (snd post)))%list
    /\ sent (env (snd get))
       = (sent (env s)
          ++ repeat (mkRequest GET (serverUrl (this s) ++ endpoint) 5000 "")
               (attempts s (snd get)))%list.
Proof.
  intros endpoint payload response s post get. subst post get.
  rewrite attempts_tries_post, attempts_tries_get.
  split.
  - apply (post_loop_effects API_MAX_RETRIES 0 endpoint payload (-1) response s).
  - apply (get_loop_effects API_MAX_RETRIES 0 endpoint (-1) response s).
Qed.

(** X6. The pauses of a request are fixed by the number of its round trips
    [n]: a POST waits 100 ms before each round trip and 1000 ms more before
    each retry, a GET waits 500 ms before each retry.  So a POST never pauses
    for more than 2300 ms in all and a GET never for more than 1000 ms. *)
Theorem request_pauses :
  forall (endpoint payload response : string) (s : State),
    let post := sendPostRequest endpoint payload response s in
    let get := sendGetRequest endpoint response s in
    delayed (env (snd post))
    = delayed (env s) + 100 * Z.of_nat (attempts s (snd post))
      + 1000 * (Z.of_nat (attempts s (snd post)) - 1)
    /\ delayed (env (snd get))
       = delayed (env s) + 500 * (Z.of_nat (attempts s (snd get)) - 1)
    /\ delayed (env (snd post)) <= delayed (env s) + 2300
    /\ delayed (env (snd get)) <= delayed (env s) + 1000.
Proof.
  intros endpoint payload response s post get. subst post get.
  destruct (sendPostRequest_policy endpoint payload response s)
    as [_ _ Pbound _ _ _ _].
  destruct (sendGetRequest_policy endpoint response s)
    as [_ _ Gbound _ _ _ _].
  unfold API_MAX_RETRIES in Pbound, Gbound.
  rewrite attempts_tries_post in *. rewrite attempts_tries_get in *.
  destruct (post_loop_effects API_MAX_RETRIES 0 endpoint payload (-1) response s)
    as (_ & Hp).
  destruct (get_loop_effects API_MAX_RETRIES 0 endpoint (-1) response s)
    as (_ & Hg).
  cbv zeta in Hp, Hg. unfold sendPostRequest, sendGetRequest.
  rewrite Hp, Hg. unfold API_MAX_RETRIES in *.
  repeat split; lia.
Qed.

(** *** Transport failure *)

Lemma tries_all_failed (sc : nat -> Z * string) fuel :
  forall k code resp,
    (forall j, (j < fuel)%nat -> fst (sc (k + j)%nat) <= 0) ->
    tries fuel sc k = fuel
    /\ outcome (S fuel) sc k code resp
       = (fst (sc (k + fuel)%nat),
          if fst (sc (k + fuel)%nat) >? 0 then snd (sc (k + fuel)%nat) else resp).
Proof.
  induction fuel as [|fuel IH]; intros k code resp Hfail.
  - cbn. rewrite Nat.add_0_r. split; [reflexivity|].
    destruct (fst (sc k) >? 0); [now destruct (sc k) | reflexivity].
  - assert (H0 : (fst (sc k) >? 0) = false).
    { specialize (Hfail 0%nat). rewrite Nat.add_0_r in Hfail.
      rewrite Z.gtb_ltb. apply Z.ltb_ge. apply Hfail. lia. }
    destruct (IH (S k) (fst (sc k)) resp) as (Ht & Ho).
    { intros j Hj. replace (S k + j)%nat with (k + S j)%nat by lia.
      apply Hfail. lia. }
    split.
    + cbn [tries]. rewrite H0, Ht. reflexivity.
    + change (outcome (S (S fuel)) sc k code resp)
        with (if fst (sc k) >? 0 then sc k
              else outcome (S fuel) sc (S k) (fst (sc k)) resp).
      rewrite H0, Ho.
      replace (S k + fuel)%nat with (k + S fuel)%nat by lia. reflexivity.
Qed.

(** X7. When the three round trips of a request all end without a definite
    status, exactly three are made, and the request returns the status of the
    last one and leaves the response text untouched. *)
Theorem retries_exhausted :
  forall (endpoint payload response : string) (s : State),
    (forall j : nat, (j < 3)%nat -> status_at s j <= 0) ->
    let post := sendPostRequest endpoint payload response s in
    let get := sendGetRequest endpoint response s in
    attempts s (snd post) = 3%nat
    /\ fst post = (status_at s 2, response)
    /\ attempts s (snd get) = 3%nat
    /\ fst get = (status_at s 2, response).
Proof.
  intros endpoint payload response s Hfail post get. subst post get.
  rewrite attempts_tries_post, attempts_tries_get.
  destruct (post_loop_runs API_MAX_RETRIES 0 endpoint payload (-1) response s)
    as (Hp & _).
  destruct (get_loop_runs API_MAX_RETRIES 0 endpoint (-1) response s)
    as (Hg & _).
  unfold sendPostRequest, sendGetRequest. rewrite Hp, Hg.
  unfold status_at in *. unfold API_MAX_RETRIES.
  destruct (tries_all_failed (script (env s)) 2
              (List.length (sent (env s))) (-1) response) as (_ & Ho).
  { intros j Hj. apply Hfail. lia. }
  destruct (tries_all_failed (script (env s)) 3
              (List.length (sent (env s))) (-1) response) as (Ht & _).
  { intros j Hj. apply Hfail. lia. }
  assert (H2 : (fst (script (env s) (List.length (sent (env s)) + 2)%nat) >? 0) = false).
  { rewrite Z.gtb_ltb. apply Z.ltb_ge. apply Hfail. lia. }
  rewrite H2 in Ho. rewrite Ho, Ht. repeat split.
Qed.

Lemma retries_exhausted_witness :
  let s := fresh_state configured (fun _ => (-1, "")) in
  attempts s (snd (sendPostRequest "/p" "{}" "" s)) = 3%nat
  /\ fst (sendPostRequest "/p" "{}" "" s) = (-1, "")
  /\ attempts s (snd (sendGetRequest "/p" "" s)) = 3%nat
  /\ fst (sendGetRequest "/p" "" s) = (-1, "").
Proof.
  intros s.
  apply (retries_exhausted "/p" "{}" "" s).
  intros j Hj. cbn. lia.
Defined.

(** The status a request returns is one the script gives to one of its three
    round trips. *)
Lemma returned_status_post endpoint payload response s :
  exists j : nat,
    (j < 3)%nat
    /\ fst (fst (sendPostRequest endpoint payload response s)) = status_at s j.
Proof.
  destruct (sendPostRequest_policy endpoint payload response s)
    as [_ _ Hb _ Hl _ _].
  unfold API_MAX_RETRIES in Hb.
  eexists. split; [|exact Hl]. lia.
Qed.

Lemma returned_status_get endpoint response s :
  exists j : nat,
    (j < 3)%nat
    /\ fst (fst (sendGetRequest endpoint response s)) = status_at s j.
Proof.
  destruct (sendGetRequest_policy endpoint response s)
    as [_ _ Hb _ Hl _ _].
  unfold API_MAX_RETRIES in Hb.
  eexists. split; [|exact Hl]. lia.
Qed.

Section Operations.
Context {codec : Codec}.

(** The request of an operation, with the status it returns named. *)
Ltac request_returns :=
  match goal with
  | |- context [sendPostRequest ?e ?p ?r ?s] =>
      let Hst := fresh "Hst" in
      let Hthis := fresh "Hthis" in
      pose proof (returned_status_post e p r s) as Hst;
      pose proof (sendPostRequest_this e p r s) as Hthis;
      destruct (sendPostRequest e p r s) as [[? ?] ?];
      cbn [fst snd] in Hst, Hthis
  | |- context [sendGetRequest ?e ?r ?s] =>
      let Hst := fresh "Hst" in
      let Hthis := fresh "Hthis" in
      pose proof (returned_status_get e r s) as Hst;
      pose proof (sendGetRequest_this e r s) as Hthis;
      destruct (sendGetRequest e r s) as [[? ?] ?];
      cbn [fst snd] in Hst, Hthis
  end.

Ltac not_200 Hno :=
  match goal with
  | Hst : exists j, (j < 3)%nat /\ ?c = status_at _ j |- _ =>
      let j := fresh "j" in
      let Hj := fresh "Hj" in
      let E := fresh "E" in
      destruct Hst as (j & Hj & E);
      assert ((c =? 200) = false)
        by (apply Z.eqb_neq; rewrite E; apply Hno; exact Hj)
  end.

(** X8. No success without a 200: when none of the next three round trips
    brings status 200, each of the four operations returns [success = false],
    reports no name, no active session and no device, and leaves the client,
    its learned device identifier included, as it was. *)
Theorem no_success_without_200 :
  forall (rfidCode : string) (s : State),
    (forall j : nat, (j < 3)%nat -> status_at s j <> 200) ->
    (ValidationResponse.success (fst (validateAPIKey s)) = false
     /\ ValidationResponse.valid (fst (validateAPIKey s)) = false
     /\ ValidationResponse.deviceId (fst (validateAPIKey s)) = 0
     /\ this (snd (validateAPIKey s)) = this s)
    /\ (AttendanceResponse.success (fst (recordAttendance rfidCode s)) = false
        /\ AttendanceResponse.studentName (fst (recordAttendance rfidCode s)) = ""
        /\ this (snd (recordAttendance rfidCode s)) = this s)
    /\ (PairingResponse.success (fst (processPairing rfidCode s)) = false
        /\ PairingResponse.studentName (fst (processPairing rfidCode s)) = ""
        /\ this (snd (processPairing rfidCode s)) = this s)
    /\ (fst (checkPairingStatus s) = PairingResponse.mk false "" "" false
        /\ this (snd (checkPairingStatus s)) = this s).
Proof.
  intros rfidCode s Hno.
  split; [|split; [|split]].
  - unfold validateAPIKey, bind, get_this, ret.
    destruct (negb (isConfigured (this s))); [repeat split|].
    request_returns. not_200 Hno.
    match goal with H : (_ =? 200) = false |- _ => rewrite H end.
    repeat split. exact Hthis.
  - unfold recordAttendance, bind, get_this, ret.
    destruct (negb (isConfigured (this s))); [repeat split|].
    request_returns. not_200 Hno.
    match goal with H : (_ =? 200) = false |- _ => rewrite H end.
    destruct ((z =? 400) || (z =? 404));
      [destruct (deserializeJson s0)|]; repeat split; exact Hthis.
  - unfold processPairing, bind, get_this, ret.
    destruct (negb (isConfigured (this s))); [repeat split|].
    request_returns. not_200 Hno.
    match goal with H : (_ =? 200) = false |- _ => rewrite H end.
    destruct (z =? 409); [repeat split; exact Hthis|].
    destruct (z =? 400);
      [destruct (deserializeJson s0)|]; repeat split; exact Hthis.
  - unfold checkPairingStatus, bind, get_this, ret.
    destruct (negb (isConfigured (this s)) || (deviceId (this s) =? 0));
      [repeat split|].
    request_returns. not_200 Hno.
    match goal with H : (_ =? 200) = false |- _ => rewrite H end.
    split; [reflexivity | exact Hthis].
Qed.

(** X9. A transport failure is reported, never a success: when the three
    round trips all end without a definite status, [validateAPIKey],
    [recordAttendance] and [processPairing] return [success = false] with the
    message "HTTP error: " followed by the last status in decimal. *)
Theorem transport_failure_reported :
  forall (rfidCode : string) (s : State),
    isConfigured (this s) = true ->
    (forall j : nat, (j < 3)%nat -> status_at s j <= 0) ->
    fst (validateAPIKey s)
    = ValidationResponse.mk false false 0 0
        ("HTTP error: " ++ String_of_int (status_at s 2))
    /\ fst (recordAttendance rfidCode s)
       = AttendanceResponse.mk false "" ""
           ("HTTP error: " ++ String_of_int (status_at s 2)) ""
    /\ fst (processPairing rfidCode s)
       = PairingResponse.mk false ""
           ("HTTP error: " ++ String_of_int (status_at s 2)) false.
Proof.
  intros rfidCode s Hconf Hfail.
  assert (H2 : status_at s 2 <= 0) by (apply Hfail; lia).
  assert (E200 : (status_at s 2 =? 200) = false) by (apply Z.eqb_neq; lia).
  assert (E400 : (status_at s 2 =? 400) = false) by (apply Z.eqb_neq; lia).
  assert (E404 : (status_at s 2 =? 404) = false) by (apply Z.eqb_neq; lia).
  assert (E409 : (status_at s 2 =? 409) = false) by (apply Z.eqb_neq; lia).
  unfold validateAPIKey, recordAttendance, processPairing, bind, get_this, ret.
  rewrite Hconf. cbn [negb].
  repeat match goal with
         | |- context [sendPostRequest ?e ?p ?r s] =>
             let H := fresh "H" in
             destruct (retries_exhausted e p r s Hfail) as (_ & H & _);
             destruct (sendPostRequest e p r s) as [[? ?] ?];
             cbn [fst] in H; injection H as -> ->
         end.
  rewrite E200, E400, E404, E409. cbn [orb]. repeat split.
Qed.

End Operations.

Lemma transport_failure_reported_witness :
  let codec := table_codec [] in
  let s := fresh_state configured (fun _ => (-11, "")) in
  fst (@recordAttendance codec "04A1B2C3" s)
  = AttendanceResponse.mk false "" "" "HTTP error: -11" "".
Proof.
  intros codec s.
  assert (Hfail : forall j : nat, (j < 3)%nat -> status_at s j <= 0)
    by (intros j Hj; cbn; lia).
  destruct (@transport_failure_reported codec "04A1B2C3" s eq_refl Hfail)
    as (_ & H & _).
  exact H.
Defined.

Lemma no_success_without_200_witness :
  let codec := table_codec [("reply", attendance_doc_flags_false)] in
  let s := fresh_state configured (fun _ => (500, "reply")) in
  AttendanceResponse.success (fst (@recordAttendance codec "04A1B2C3" s)) = false
  /\ AttendanceResponse.studentName (fst (@recordAttendance codec "04A1B2C3" s)) = "".
Proof.
  intros codec s.
  assert (Hno : forall j : nat, (j < 3)%nat -> status_at s j <> 200)
    by (intros j Hj; cbn; lia).
  destruct (@no_success_without_200 codec "04A1B2C3" s Hno)
    as (_ & (H1 & H2 & _) & _).
  split; assumption.
Defined.

(** *** Configuration *)

(** X10. [begin] removes one trailing slash from the server URL and no more:
    a URL given with a slash at the end is stored without it, a URL whose
    last character is not a slash is stored as given.  The key is stored as
    given and a learned device identifier is kept. *)
Theorem begin_strips_one_slash :
  forall (u key : string) (c : t),
    serverUrl (begin (u ++ "/") key c) = u
    /\ (endsWith u "/" = false -> serverUrl (begin u key c) = u)
    /\ apiKey (begin u key c) = key
    /\ deviceId (begin u key c) = deviceId c.
Proof.
  intros u key c. unfold begin. cbn [serverUrl apiKey deviceId].
  split; [|split; [|split; reflexivity]].
  - rewrite endsWith_append_char, length_append. cbn [String.length].
    replace (String.length u + 1 - 1)%nat with (String.length u) by lia.
    apply substring_0_append.
  - intros H. now rewrite H.
Qed.

Lemma begin_strips_one_slash_witness :
  serverUrl (begin "http://school.local//" "key-1" new) = "http://school.local/"
  /\ serverUrl (begin "http://school.local" "key-1" new) = "http://school.local".
Proof.
  destruct (begin_strips_one_slash "http://school.local/" "key-1" new)
    as (H1 & _).
  destruct (begin_strips_one_slash "http://school.local" "key-1" new)
    as (_ & H2 & _).
  split; [exact H1 | apply H2; reflexivity].
Defined.

(** X11. After [begin] the client is configured exactly when the key is not
    empty and the URL is neither empty nor the single slash (which [begin]
    strips to the empty URL). *)
Theorem begin_configured_iff :
  forall (u key : string) (c : t),
    isConfigured (begin u key c) = true
    <-> (key <> "" /\ u <> "" /\ u <> "/").
Proof.
  intros u key c. unfold isConfigured, begin. cbn [serverUrl apiKey].
  rewrite andb_true_iff, !nonempty_length.
  destruct (endsWith u "/") eqn:E.
  - destruct (endsWith_char_inv _ _ E) as (v & ->).
    rewrite length_append. cbn [String.length].
    replace (String.length v + 1 - 1)%nat with (String.length v) by lia.
    rewrite substring_0_append.
    split.
    + intros [Hv Hk]. repeat split; try assumption.
      * destruct v; discriminate.
      * destruct v as [|d v]; [now elim Hv | destruct v; discriminate].
    + intros (Hk & _ & Hs). split; [|exact Hk].
      intros ->. now apply Hs.
  - split.
    + intros [Hu Hk]. repeat split; try assumption.
      intros ->. discriminate E.
    + intros (Hk & Hu & _). split; assumption.
Qed.

Lemma begin_configured_iff_witness :
  isConfigured (begin "http://school.local/" "key-1" new) = true
  /\ isConfigured (begin "/" "key-1" new) = false.
Proof.
  split.
  - apply begin_configured_iff. repeat split; discriminate.
  - destruct (isConfigured (begin "/" "key-1" new)) eqn:E; [|reflexivity].
    apply begin_configured_iff in E. destruct E as (_ & _ & E). now elim E.
Defined.

(** *** Classification of the responses *)

(** The request of an operation, once the network answers it. *)
Ltac answered_by Hans :=
  match goal with
  | |- context [sendPostRequest ?e ?p ?r ?s] =>
      let H := fresh "Hans" in
      pose proof (sendPostRequest_answers e p r s _ _ Hans) as H;
      destruct (sendPostRequest e p r s) as [[? ?] ?];
      cbn [fst] in H; injection H as -> ->
  | |- context [sendGetRequest ?e ?r ?s] =>
      let H := fresh "Hans" in
      pose proof (sendGetRequest_answers e r s _ _ Hans) as H;
      destruct (sendGetRequest e r s) as [[? ?] ?];
      cbn [fst] in H; injection H as -> ->
  end.

Section Classification.
Context {codec : Codec}.

(** A goal that assumes the empty string is not empty. *)
Ltac absurd_empty :=
  match goal with
  | |- EmptyString <> EmptyString -> _ =>
      let H := fresh in intros H; now elim H
  end.

(** Case analysis on everything an operation branches on. *)
Ltac break_cases :=
  repeat match goal with
         | |- context [sendPostRequest ?e ?p ?r ?s] =>
             destruct (sendPostRequest e p r s) as [[? ?] ?]
         | |- context [sendGetRequest ?e ?r ?s] =>
             destruct (sendGetRequest e r s) as [[? ?] ?]
         | |- context [match deserializeJson ?x with _ => _ end] =>
             destruct (deserializeJson x)
         | |- context [if ?b then _ else _] => destruct b eqn:?
         end.

(** X12. The business rejections of a pairing request: status 409 gives the
    message "card_already_used" whatever the body is, and status 400 gives
    the [message] string of the body, or "Bad request" when the body does not
    parse or holds no such string.  Both have [success = false]. *)
Theorem pairing_rejections :
  forall (rfidCode body : string) (s : State),
    isConfigured (this s) = true ->
    (answers s 409 body ->
     fst (processPairing rfidCode s)
     = PairingResponse.mk false "" "card_already_used" false)
    /\ (answers s 400 body ->
        fst (processPairing rfidCode s)
        = PairingResponse.mk false ""
            match deserializeJson body with
            | Some doc => or_cstr (getMember "message" doc) "Bad request"
            | None => "Bad request"
            end
            false).
Proof.
  intros rfidCode body s Hconf.
  split; intros Hans;
    unfold processPairing, bind, get_this, ret; rewrite Hconf; cbn [negb];
    answered_by Hans; cbn [Z.eqb Pos.eqb].
  - reflexivity.
  - destruct (deserializeJson body); reflexivity.
Qed.

(** X13. The status label of an attendance outcome prefers [data.type]: when
    [data.type] is a string the label is that string, whatever [data.status]
    holds, and when [data.type] is absent or null the label is the string
    under [data.status], or empty. *)
Theorem attendance_status_label :
  forall (rfidCode body : string) (doc : JsonVariant) (s : State),
    isConfigured (this s) = true ->
    answers s 200 body ->
    deserializeJson body = Some doc ->
    let data := as_JsonObject (getMember "data" doc) in
    (forall label : string,
       getMember "type" data = JString label ->
       AttendanceResponse.status (fst (recordAttendance rfidCode s)) = label)
    /\ (getMember "type" data = JNull ->
        AttendanceResponse.status (fst (recordAttendance rfidCode s))
        = or_cstr (getMember "status" data) "").
Proof.
  intros rfidCode body doc s Hconf Hans Hdoc data. subst data.
  split; [intros label Htype | intros Htype];
    unfold recordAttendance, bind, get_this, ret; rewrite Hconf; cbn [negb];
    answered_by Hans; cbn [Z.eqb Pos.eqb]; rewrite Hdoc; cbv zeta;
    rewrite Htype; reflexivity.
Qed.

(** X14. The business rejections of an attendance request: at status 400 or
    404 the outcome is a failure without a name or a label; it carries the
    [code] and [message] strings of the [error] object of the body, and when
    the body does not parse it carries the message "card_not_found" and no
    error code. *)
Theorem attendance_rejection :
  forall (rfidCode body : string) (code : Z) (s : State),
    isConfigured (this s) = true ->
    code = 400 \/ code = 404 ->
    answers s code body ->
    fst (recordAttendance rfidCode s)
    = match deserializeJson body with
      | Some errorDoc =>
          let errorObj := as_JsonObject (getMember "error" errorDoc) in
          AttendanceResponse.mk false "" ""
            (or_cstr (getMember "message" errorObj) "")
            (or_cstr (getMember "code" errorObj) "")
      | None => AttendanceResponse.mk false "" "" "card_not_found" ""
      end.
Proof.
  intros rfidCode body code s Hconf Hcode Hans.
  unfold recordAttendance, bind, get_this, ret. rewrite Hconf. cbn [negb].
  answered_by Hans.
  destruct Hcode as [-> | ->]; cbn [Z.eqb Pos.eqb orb];
    destruct (deserializeJson body); reflexivity.
Qed.

(** X15. A successful validation teaches the client its device: at status
    200 with a body whose success flag and [data.valid] are true and whose
    [data.device_id] is an integer [d] with [0 < d <= INT_MAX], the outcome
    is valid with device identifier [d], and afterwards the client holds [d],
    its server URL and key unchanged. *)
Theorem validation_learns_device :
  forall (body : string) (doc : JsonVariant) (d : Z) (s : State),
    isConfigured (this s) = true ->
    answers s 200 body ->
    deserializeJson body = Some doc ->
    or_bool (getMember "success" doc) false = true ->
    or_bool (getMember "valid" (as_JsonObject (getMember "data" doc))) false = true ->
    getMember "device_id" (as_JsonObject (getMember "data" doc)) = JInt d ->
    0 < d <= INT_MAX ->
    ValidationResponse.success (fst (validateAPIKey s)) = true
    /\ ValidationResponse.valid (fst (validateAPIKey s)) = true
    /\ ValidationResponse.deviceId (fst (validateAPIKey s)) = d
    /\ getDeviceId (this (snd (validateAPIKey s))) = d
    /\ serverUrl (this (snd (validateAPIKey s))) = serverUrl (this s)
    /\ apiKey (this (snd (validateAPIKey s))) = apiKey (this s).
Proof.
  intros body doc d s Hconf Hans Hdoc Hok Hvalid Hid Hd.
  assert (Hint : or_int (JInt d) 0 = d).
  { unfold or_int, INT_MIN, INT_MAX in *.
    replace (- 2 ^ 31 <=? d) with true by (symmetry; apply Z.leb_le; lia).
    replace (d <=? 2 ^ 31 - 1) with true by (symmetry; apply Z.leb_le; lia).
    reflexivity. }
  assert (Hu : to_uint32 d = d).
  { apply to_uint32_small. unfold ULONG_MODULUS, INT_MAX in *. lia. }
  assert (Hpos : (d >? 0) = true) by (rewrite Z.gtb_ltb; apply Z.ltb_lt; lia).
  pose proof (sendPostRequest_this "/api/v1/public/devices/validate-key"
                (serializeJson (JObject [("api_key", JString (apiKey (this s)))]))
                "" s) as Hthis.
  unfold validateAPIKey, bind, get_this, ret, put_deviceId, getDeviceId.
  rewrite Hconf. cbn [negb].
  answered_by Hans.
  cbn [Z.eqb Pos.eqb]. rewrite Hdoc. cbv zeta. rewrite Hok, Hvalid, Hid, Hint, Hu, Hpos.
  cbn. cbn in Hthis. rewrite Hthis. repeat split.
Qed.

(** X16. What the outcomes never say, whatever the network does.  A
    validation outcome is valid only if it is a success, and a failed one
    carries no device and no school; an attendance outcome with a name is a
    success and one with an error code is a failure without a name; a pairing
    outcome never claims an active session; a pairing status outcome reports
    an active session or a name only if it is a success, and never a
    message. *)
Theorem outcome_invariants :
  forall (rfidCode : string) (s : State),
    let v := fst (validateAPIKey s) in
    let a := fst (recordAttendance rfidCode s) in
    let p := fst (processPairing rfidCode s) in
    let q := fst (checkPairingStatus s) in
    (ValidationResponse.valid v = true -> ValidationResponse.success v = true)
    /\ (ValidationResponse.success v = false ->
        ValidationResponse.valid v = false
        /\ ValidationResponse.deviceId v = 0
        /\ ValidationResponse.schoolId v = 0)
    /\ 0 <= ValidationResponse.deviceId v < ULONG_MODULUS
    /\ (AttendanceResponse.studentName a <> "" ->
        AttendanceResponse.success a = true)
    /\ (AttendanceResponse.errorCode a <> "" ->
        AttendanceResponse.success a = false
        /\ AttendanceResponse.studentName a = "")
    /\ PairingResponse.sessionActive p = false
    /\ (PairingResponse.sessionActive q = true -> PairingResponse.success q = true)
    /\ (PairingResponse.studentName q <> "" -> PairingResponse.success q = true)
    /\ PairingResponse.message q = "".
Proof.
  intros rfidCode s v a p q. subst v a p q.
  assert (Hz : 0 <= 0 < ULONG_MODULUS) by (unfold ULONG_MODULUS; lia).
  split; [|split; [|split]]; [| | |split; [|split]]; [| | | | |split; [|split; [|split]]].
  - unfold validateAPIKey, bind, get_this, ret, put_deviceId.
    break_cases. all: cbn; congruence.
  - unfold validateAPIKey, bind, get_this, ret, put_deviceId.
    break_cases. all: cbn; intros; repeat split; congruence.
  - unfold validateAPIKey, bind, get_this, ret, put_deviceId.
    break_cases. all: cbn; try exact Hz; apply to_uint32_range.
  - unfold recordAttendance, bind, get_this, ret.
    break_cases. all: cbn; try absurd_empty; try reflexivity.
    all: intros H; apply (proj2 (nonempty_length _)) in H; congruence.
  - unfold recordAttendance, bind, get_this, ret.
    break_cases. all: cbn; try absurd_empty; intros; split; reflexivity.
  - unfold processPairing, bind, get_this, ret.
    break_cases. all: reflexivity.
  - unfold checkPairingStatus, bind, get_this, ret.
    break_cases. all: cbn; try congruence.
    intros _.
    match goal with H : _ && _ = true |- _ => apply andb_true_iff in H; apply H end.
  - unfold checkPairingStatus, bind, get_this, ret.
    break_cases. all: cbn; try absurd_empty.
    intros _.
    match goal with H : _ && _ = true |- _ => apply andb_true_iff in H; apply H end.
  - unfold checkPairingStatus, bind, get_this, ret.
    break_cases. all: reflexivity.
Qed.

(** X17. What each operation of a configured client puts on the wire: one
    to three identical round trips, a POST of the serialized key (with the
    card code for attendance and pairing) to the path of the operation, or,
    for the status poll of a client that has learned its device, a GET of the
    status path ending in the device identifier in decimal.  A status poll
    before any device is learned sends nothing and changes nothing. *)
Theorem operations_on_the_wire :
  forall (rfidCode : string) (s : State),
    isConfigured (this s) = true ->
    let base := serverUrl (this s) in
    let key := JString (apiKey (this s)) in
    let card := JString rfidCode in
    let sends (s' : State) (r : Request) :=
      sent (env s') = (sent (env s) ++ repeat r (attempts s s'))%list
      /\ (1 <= attempts s s' <= 3)%nat in
    sends (snd (validateAPIKey s))
      (mkRequest POST (base ++ "/api/v1/public/devices/validate-key") 5000
         (serializeJson (JObject [("api_key", key)])))
    /\ sends (snd (recordAttendance rfidCode s))
         (mkRequest POST (base ++ "/api/v1/public/attendance/rfid") 5000
            (serializeJson (JObject [("api_key", key); ("rfid_code", card)])))
    /\ sends (snd (processPairing rfidCode s))
         (mkRequest POST (base ++ "/api/v1/public/pairing/rfid") 5000
            (serializeJson (JObject [("api_key", key); ("rfid_code", card)])))
    /\ (deviceId (this s) <> 0 ->
        sends (snd (checkPairingStatus s))
          (mkRequest GET
             (base ++ "/api/v1/public/pairing/status/"
                   ++ String_of_int (deviceId (this s)))
             5000 ""))
    /\ (deviceId (this s) = 0 -> snd (checkPairingStatus s) = s).
Proof.
  intros rfidCode s Hconf base key card sends. subst base key card sends.
  cbv beta.
  unfold validateAPIKey, recordAttendance, processPairing, checkPairingStatus,
    bind, get_this, ret, put_deviceId.
  rewrite Hconf. cbn [negb orb].
  split; [|split; [|split; [|split]]].
  - match goal with
    | |- context [sendPostRequest ?e ?p ?r s] =>
        destruct (request_repeats_same_round_trip e p r s) as (Hs & _);
        destruct (sendPostRequest_policy e p r s) as [_ _ Hb _ _ _ _];
        destruct (sendPostRequest e p r s) as [[? ?] ?]
    end.
    cbn [snd] in Hs, Hb. unfold API_MAX_RETRIES in Hb.
    break_cases. all: split; [exact Hs | exact Hb].
  - match goal with
    | |- context [sendPostRequest ?e ?p ?r s] =>
        destruct (request_repeats_same_round_trip e p r s) as (Hs & _);
        destruct (sendPostRequest_policy e p r s) as [_ _ Hb _ _ _ _];
        destruct (sendPostRequest e p r s) as [[? ?] ?]
    end.
    cbn [snd] in Hs, Hb. unfold API_MAX_RETRIES in Hb.
    break_cases. all: split; [exact Hs | exact Hb].
  - match goal with
    | |- context [sendPostRequest ?e ?p ?r s] =>
        destruct (request_repeats_same_round_trip e p r s) as (Hs & _);
        destruct (sendPostRequest_policy e p r s) as [_ _ Hb _ _ _ _];
        destruct (sendPostRequest e p r s) as [[? ?] ?]
    end.
    cbn [snd] in Hs, Hb. unfold API_MAX_RETRIES in Hb.
    break_cases. all: split; [exact Hs | exact Hb].
  - intros Hdev. apply Z.eqb_neq in Hdev. rewrite Hdev.
    match goal with
    | |- context [sendGetRequest ?e ?r s] =>
        destruct (request_repeats_same_round_trip e "" r s) as (_ & Hs);
        destruct (sendGetRequest_policy e r s) as [_ _ Hb _ _ _ _];
        destruct (sendGetRequest e r s) as [[? ?] ?]
    end.
    cbn [snd] in Hs, Hb. unfold API_MAX_RETRIES in Hb.
    break_cases. all: split; [exact Hs | exact Hb].
  - intros Hdev. rewrite Hdev. reflexivity.
Qed.

End Classification.

Lemma pairing_rejections_witness :
  let codec := table_codec [("reply", JObject [("message", JString "Card unknown")])] in
  fst (@processPairing codec "04A1B2C3"
         (fresh_state configured (fun _ => (409, "reply"))))
  = PairingResponse.mk false "" "card_already_used" false
  /\ fst (@processPairing codec "04A1B2C3"
            (fresh_state configured (fun _ => (400, "reply"))))
     = PairingResponse.mk false "" "Card unknown" false
  /\ fst (@processPairing codec "04A1B2C3"
            (fresh_state configured (fun _ => (400, "<html>"))))
     = PairingResponse.mk false "" "Bad request" false.
Proof.
  intros codec.
  split; [|split].
  - apply (@pairing_rejections codec "04A1B2C3" "reply"
             (fresh_state configured (fun _ => (409, "reply"))) eq_refl).
    apply answers_first; reflexivity.
  - apply (@pairing_rejections codec "04A1B2C3" "reply"
             (fresh_state configured (fun _ => (400, "reply"))) eq_refl).
    apply answers_first; reflexivity.
  - apply (@pairing_rejections codec "04A1B2C3" "<html>"
             (fresh_state configured (fun _ => (400, "<html>"))) eq_refl).
    apply answers_first; reflexivity.
Defined.

Lemma attendance_status_label_witness :
  let doc := JObject [("success", JBool true);
                      ("data", JObject [("student_name", JString "Alice");
                                        ("type", JString "on_time");
                                        ("status", JString "late")])] in
  let codec := table_codec [("reply", doc)] in
  AttendanceResponse.status
    (fst (@recordAttendance codec "04A1B2C3"
            (fresh_state configured (fun _ => (200, "reply")))))
  = "on_time".
Proof.
  intros doc codec.
  assert (Hans : answers (fresh_state configured (fun _ => (200, "reply"))) 200 "reply")
    by (apply answers_first; reflexivity).
  destruct (@attendance_status_label codec "04A1B2C3" "reply" doc
              (fresh_state configured (fun _ => (200, "reply")))
              eq_refl Hans eq_refl) as (Htype & _).
  apply Htype. reflexivity.
Defined.

Lemma attendance_rejection_witness :
  let doc := JObject [("error", JObject [("code", JString "VAL_NO_SCHEDULE");
                                         ("message", JString "No schedule")])] in
  let codec := table_codec [("reply", doc)] in
  fst (@recordAttendance codec "04A1B2C3"
         (fresh_state configured (fun _ => (404, "reply"))))
  = AttendanceResponse.mk false "" "" "No schedule" "VAL_NO_SCHEDULE".
Proof.
  intros doc codec.
  apply (@attendance_rejection codec "04A1B2C3" "reply" 404
           (fresh_state configured (fun _ => (404, "reply"))) eq_refl).
  - right. reflexivity.
  - apply answers_first; reflexivity.
Defined.

Lemma validation_learns_device_witness :
  let codec := table_codec [("reply", validation_doc 7)] in
  let s := fresh_state configured (fun _ => (200, "reply")) in
  ValidationResponse.deviceId (fst (@validateAPIKey codec s)) = 7
  /\ getDeviceId (this (snd (@validateAPIKey codec s))) = 7.
Proof.
  intros codec s.
  assert (Hans : answers s 200 "reply") by (apply answers_first; reflexivity).
  assert (Hd : 0 < 7 <= INT_MAX) by (unfold INT_MAX; lia).
  destruct (@validation_learns_device codec "reply" (validation_doc 7) 7 s
              eq_refl Hans eq_refl eq_refl eq_refl eq_refl Hd)
    as (_ & _ & H1 & H2 & _).
  split; assumption.
Defined.

Lemma outcome_invariants_witness :
  let codec := table_codec [("reply", attendance_doc_flags_false)] in
  let s := fresh_state configured (fun _ => (200, "reply")) in
  AttendanceResponse.success (fst (@recordAttendance codec "04A1B2C3" s)) = true.
Proof.
  intros codec s.
  destruct (@outcome_invariants codec "04A1B2C3" s)
    as (_ & _ & _ & Hname & _).
  apply Hname. discriminate.
Defined.

(** A validation followed by a status poll: the poll is addressed to the
    device the validation taught. *)
Lemma operations_on_the_wire_witness :
  let codec := table_codec [("reply", validation_doc 7)] in
  let s := fresh_state configured (fun _ => (200, "reply")) in
  let s1 := snd (@validateAPIKey codec s) in
  let s2 := snd (@checkPairingStatus codec s1) in
  sent (env s2)
  = (sent (env s1)
     ++ repeat (mkRequest GET
                  "http://school.local/api/v1/public/pairing/status/7" 5000 "")
          (attempts s1 s2))%list
  /\ (1 <= attempts s1 s2 <= 3)%nat.
Proof.
  intros codec s s1 s2.
  destruct (@operations_on_the_wire codec "04A1B2C3" s1 eq_refl)
    as (_ & _ & _ & Hpoll & _).
  apply Hpoll. discriminate.
Defined.


End APIClientMore.

(** ** The card reader *)

Module RFIDReaderFacts.
Import ArduinoString ArduinoStringFacts RFIDReader.

Lemma byte_hex_upper (b : byte) :
  exists c1 c2 : ascii,
    toUpperCase (byte_hex b) = String c1 (String c2 "")
    /\ is_upper_hex c1 = true /\ is_upper_hex c2 = true
    /\ (16 * hex_value c1 + hex_value c2)%N = Byte.to_N b.
Proof.
  assert (H : match toUpperCase (byte_hex b) with
              | String c1 (String c2 EmptyString) =>
                  is_upper_hex c1 && is_upper_hex c2
                  && (16 * hex_value c1 + hex_value c2 =? Byte.to_N b)%N
              | _ => false
              end = true)
    by (destruct b; vm_compute; reflexivity).
  destruct (toUpperCase (byte_hex b)) as [|c1 [|c2 [|c3 rest]]];
    try discriminate H.
  apply andb_true_iff in H. destruct H as [H Hv].
  apply andb_true_iff in H. destruct H as [H1 H2].
  apply N.eqb_eq in Hv.
  exists c1, c2. repeat split; assumption.
Qed.

Lemma formatUID_loop_skipn fuel :
  forall i uid result,
    (i + fuel <= List.length uid)%nat ->
    formatUID_loop fuel i uid result
    = (result ++ String.concat "" (map byte_hex (firstn fuel (skipn i uid))))%string.
Proof.
  induction fuel as [|fuel IH]; intros i uid result H.
  - cbn. now rewrite append_nil_r.
  - cbn [formatUID_loop]. cbv zeta.
    assert (Hs : skipn i uid = nth i uid x00 :: skipn (S i) uid).
    { clear IH. revert uid H. induction i as [|i IHi]; intros uid H.
      - destruct uid; [cbn in H; lia | reflexivity].
      - destruct uid as [|b uid]; [cbn in H; lia|].
        cbn [skipn nth]. apply IHi. cbn in H. lia. }
    rewrite IH by lia. rewrite Hs. cbn [firstn map].
    set (rest := map byte_hex (firstn fuel (skipn (S i) uid))).
    assert (Hc : String.concat "" (byte_hex (nth i uid x00) :: rest)
                 = (byte_hex (nth i uid x00) ++ String.concat "" rest)%string).
    { destruct rest; cbn [String.concat]; [now rewrite append_nil_r | reflexivity]. }
    rewrite Hc. unfold byte_hex.
    destruct (Byte.to_N (nth i uid x00) <? 16)%N;
      now rewrite !append_assoc.
Qed.

(** The text of a list of bytes, two digits each. *)
Lemma upper_concat_cons (b : byte) (rest : list byte) :
  toUpperCase (String.concat "" (map byte_hex (b :: rest)))
  = (toUpperCase (byte_hex b)
     ++ toUpperCase (String.concat "" (map byte_hex rest)))%string.
Proof.
  cbn [map]. rewrite <- toUpperCase_append. f_equal.
  destruct (map byte_hex rest); cbn [String.concat];
    [now rewrite append_nil_r | reflexivity].
Qed.

Lemma upper_concat_spec (bytes : list byte) :
  let text := toUpperCase (String.concat "" (map byte_hex bytes)) in
  String.length text = (2 * List.length bytes)%nat
  /\ all_chars is_upper_hex text = true
  /\ parse_hex_pairs text = map Byte.to_N bytes.
Proof.
  induction bytes as [|b bytes IH]; [repeat split|].
  cbv zeta in *. rewrite upper_concat_cons.
  destruct (byte_hex_upper b) as (c1 & c2 & -> & H1 & H2 & Hv).
  destruct IH as (IHl & IHc & IHp).
  cbn [append String.length all_chars parse_hex_pairs map List.length].
  rewrite IHl, IHc, IHp, H1, H2, Hv. repeat split. lia.
Qed.

Lemma formatUID_firstn uid size :
  (size <= List.length uid)%nat ->
  formatUID uid size
  = toUpperCase (String.concat "" (map byte_hex (firstn size uid))).
Proof.
  intros H. unfold formatUID. rewrite formatUID_loop_skipn by lia. reflexivity.
Qed.

(** X18. The text of a UID has two characters per byte, each an upper-case
    hexadecimal digit: single-digit bytes get their leading zero. *)
Theorem formatUID_shape :
  forall (uid : list byte) (size : nat),
    (size <= List.length uid)%nat ->
    String.length (formatUID uid size) = (2 * size)%nat
    /\ all_chars is_upper_hex (formatUID uid size) = true.
Proof.
  intros uid size H. rewrite formatUID_firstn by exact H.
  destruct (upper_concat_spec (firstn size uid)) as (Hl & Hc & _).
  rewrite Hl, Hc, length_firstn. split; [lia | reflexivity].
Qed.

Lemma formatUID_shape_witness :
  String.length (formatUID [x04; xa1; xb2; x0c] 4) = 8%nat
  /\ all_chars is_upper_hex (formatUID [x04; xa1; xb2; x0c] 4) = true.
Proof.
  apply (formatUID_shape [x04; xa1; xb2; x0c] 4). cbn. lia.
Defined.

(** X19. The text determines the card: reading the digit pairs back gives
    the bytes that were formatted, so two UIDs with the same text have the
    same size and the same bytes. *)
Theorem formatUID_determines_bytes :
  forall (uid1 uid2 : list byte) (size1 size2 : nat),
    (size1 <= List.length uid1)%nat ->
    (size2 <= List.length uid2)%nat ->
    parse_hex_pairs (formatUID uid1 size1) = map Byte.to_N (firstn size1 uid1)
    /\ (formatUID uid1 size1 = formatUID uid2 size2 ->
        size1 = size2 /\ firstn size1 uid1 = firstn size2 uid2).
Proof.
  intros uid1 uid2 size1 size2 H1 H2.
  assert (P1 : parse_hex_pairs (formatUID uid1 size1)
               = map Byte.to_N (firstn size1 uid1)).
  { rewrite formatUID_firstn by exact H1. apply upper_concat_spec. }
  assert (P2 : parse_hex_pairs (formatUID uid2 size2)
               = map Byte.to_N (firstn size2 uid2)).
  { rewrite formatUID_firstn by exact H2. apply upper_concat_spec. }
  split; [exact P1|].
  intros E.
  destruct (formatUID_shape uid1 size1 H1) as (L1 & _).
  destruct (formatUID_shape uid2 size2 H2) as (L2 & _).
  split; [rewrite E in L1; lia|].
  rewrite E, P2 in P1.
  assert (Hinj : forall l1 l2 : list byte,
             map Byte.to_N l1 = map Byte.to_N l2 -> l1 = l2).
  { induction l1 as [|a l1 IH]; intros [|b l2] Hm; try discriminate Hm;
      [reflexivity|].
    cbn in Hm. injection Hm as Hab Hm. f_equal; [|now apply IH].
    pose proof (Byte.of_to_N a) as Ha. pose proof (Byte.of_to_N b) as Hb.
    rewrite Hab in Ha. congruence. }
  symmetry. now apply Hinj.
Qed.

Lemma formatUID_determines_bytes_witness :
  parse_hex_pairs (formatUID [x04; xa1; xb2; x0c] 4) = [4; 161; 178; 12]%N.
Proof.
  assert (H : (4 <= List.length [x04; xa1; xb2; x0c])%nat) by (cbn; lia).
  destruct (formatUID_determines_bytes
              [x04; xa1; xb2; x0c] [x04; xa1; xb2; x0c] 4 4 H H) as (Hp & _).
  exact Hp.
Defined.

End RFIDReaderFacts.

(** ** The display *)

Module DisplayManagerFacts.
Import Arduino ArduinoString ArduinoStringFacts DisplayManager.

(** X20. [truncateString] with room for at least the ellipsis never yields
    more than [maxLen] characters.  A text that fits is passed through, the
    null pointer gives the empty text, and a longer text is cut to its first
    [maxLen - 3] characters followed by three dots, [maxLen] characters in
    all. *)
Theorem truncateString_fits :
  forall (src : string) (maxLen : Z),
    3 <= maxLen ->
    Z.of_nat (String.length (truncateString (Some src) maxLen)) <= maxLen
    /\ truncateString None maxLen = ""
    /\ (Z.of_nat (String.length src) <= maxLen ->
        truncateString (Some src) maxLen = src)
    /\ (maxLen < Z.of_nat (String.length src) ->
        Z.of_nat (String.length (truncateString (Some src) maxLen)) = maxLen
        /\ exists rest : string,
             src = (substring 0 (Z.to_nat (maxLen - 3)) src ++ rest)%string
             /\ truncateString (Some src) maxLen
                = (substring 0 (Z.to_nat (maxLen - 3)) src ++ "...")%string).
Proof.
  intros src maxLen H3. unfold truncateString.
  destruct (Z.of_nat (String.length src) <=? maxLen) eqn:E.
  - apply Z.leb_le in E.
    split; [exact E|]. split; [reflexivity|]. split; [reflexivity|].
    intros H. lia.
  - apply Z.leb_gt in E.
    assert (Hl : Z.of_nat (String.length
                    (substring 0 (Z.to_nat (maxLen - 3)) src ++ "...")) = maxLen).
    { rewrite length_append, length_substring_0. cbn [String.length]. lia. }
    split; [lia|]. split; [reflexivity|]. split; [intros H; lia|].
    intros _. split; [exact Hl|].
    destruct (substring_0_prefix (Z.to_nat (maxLen - 3)) src) as (rest & Hr).
    exists rest. split; [exact Hr | reflexivity].
Qed.

Lemma truncateString_fits_witness :
  truncateString (Some "Muhammad Al-Fatih Ramadhan") 16 = "Muhammad Al-F..."
  /\ truncateString (Some "Alice") 16 = "Alice".
Proof.
  assert (H3 : 3 <= 16) by lia.
  destruct (truncateString_fits "Muhammad Al-Fatih Ramadhan" 16 H3)
    as (_ & _ & _ & Hlong).
  destruct (truncateString_fits "Alice" 16 H3) as (_ & _ & Hshort & _).
  split.
  - destruct Hlong as (_ & rest & _ & Heq); [cbn; lia|]. exact Heq.
  - apply Hshort. cbn. lia.
Defined.

Lemma truncate_cols (src : option string) :
  Z.of_nat (String.length (truncateString src LCD_COLS)) <= LCD_COLS.
Proof.
  destruct src as [src|].
  - apply truncateString_fits. unfold LCD_COLS. lia.
  - cbn. unfold LCD_COLS. lia.
Qed.

Lemma pad_loop_fits (n : nat) (col : Z) :
  col + Z.of_nat n <= LCD_COLS -> fits_from col (pad_loop n) = true.
Proof.
  revert col. induction n as [|n IH]; intros col H; [reflexivity|].
  cbn [pad_loop fits_from String.length].
  rewrite IH by lia.
  replace (col + Z.of_nat 1 <=? LCD_COLS) with true; [reflexivity|].
  symmetry. apply Z.leb_le. lia.
Qed.

Lemma pad_loop_written (n : nat) (row : Z) :
  written_on row row (pad_loop n) = Z.of_nat n.
Proof.
  induction n as [|n IH]; [reflexivity|].
  cbn [pad_loop written_on String.length]. rewrite Z.eqb_refl, IH. lia.
Qed.

(** X21. Whatever texts they are given, the display functions never print
    past the sixteenth column: every text is cut by [truncateString] first
    and every fixed text fits.  A display that is not initialised is sent
    nothing. *)
Theorem display_lines_fit :
  forall (a b : option string) (connected : bool) (d : t),
    fits_from 0 (showMessage a b d) = true
    /\ fits_from 0 (showIdle a d) = true
    /\ fits_from 0 (showPairingMode a d) = true
    /\ fits_from 0 (showSuccess a b d) = true
    /\ fits_from 0 (showError a d) = true
    /\ fits_from 0 (showWiFiStatus connected a d) = true
    /\ fits_from 0 (showConnecting a d) = true
    /\ (ready d = false ->
        showMessage a b d = [] /\ showIdle a d = [] /\ showPairingMode a d = []
        /\ showSuccess a b d = [] /\ showError a d = []
        /\ showWiFiStatus connected a d = [] /\ showConnecting a d = []).
Proof.
  intros a b connected d.
  pose proof (truncate_cols a) as Ha. pose proof (truncate_cols b) as Hb.
  assert (Ha' := Ha). assert (Hb' := Hb).
  apply Z.leb_le in Ha', Hb'.
  unfold showMessage, showIdle, showPairingMode, showSuccess, showError,
    showWiFiStatus, showConnecting.
  destruct (ready d); cbn [negb].
  2: { repeat split. }
  repeat split; try discriminate.
  - cbn [fits_from]. rewrite !Z.add_0_l, Ha', Hb'. reflexivity.
  - cbn [fits_from app]. rewrite !Z.add_0_l, Ha'.
    replace (Z.of_nat (String.length "Tap Kartu...    ") <=? LCD_COLS)
      with true by reflexivity.
    cbn [andb]. apply pad_loop_fits. lia.
  - cbn [fits_from]. rewrite !Z.add_0_l, Ha'. reflexivity.
  - cbn [fits_from]. rewrite !Z.add_0_l, Ha', Hb'. reflexivity.
  - cbn [fits_from]. rewrite !Z.add_0_l, Ha'. reflexivity.
  - destruct connected; [|reflexivity].
    destruct a as [ip|]; [|reflexivity].
    destruct (0 <? String.length ip)%nat; [|reflexivity].
    cbn [fits_from app]. rewrite !Z.add_0_l, Ha'. reflexivity.
  - cbn [fits_from]. rewrite !Z.add_0_l, Ha'. reflexivity.
Qed.

Lemma display_lines_fit_witness :
  showError (Some "card_not_found") new = []
  /\ showSuccess (Some "Alice") (Some "on_time") new = [].
Proof.
  destruct (display_lines_fit (Some "card_not_found") None false new)
    as (_ & _ & _ & _ & _ & _ & _ & Hoff).
  destruct (display_lines_fit (Some "Alice") (Some "on_time") false new)
    as (_ & _ & _ & _ & _ & _ & _ & Hoff').
  destruct (Hoff eq_refl) as (_ & _ & _ & _ & He & _).
  destruct (Hoff' eq_refl) as (_ & _ & _ & Hs & _).
  split; [exact He | exact Hs].
Defined.

(** X22. [showIdle] rewrites both rows in full without clearing the screen:
    the prompt on row 0 and the time with its padding on row 1 are sixteen
    characters each, so nothing of what the rows showed before remains. *)
Theorem showIdle_overwrites_rows :
  forall (time : option string) (d : t),
    ready d = true ->
    written_on 0 0 (showIdle time d) = LCD_COLS
    /\ written_on 1 0 (showIdle time d) = LCD_COLS
    /\ ~ In Clear (showIdle time d).
Proof.
  intros time d Hr. unfold showIdle. rewrite Hr. cbn [negb].
  pose proof (truncate_cols time) as Ht.
  split; [|split].
  - cbn [written_on app Z.eqb].
    set (n := Z.to_nat _).
    assert (H0 : written_on 0 1 (pad_loop n) = 0).
    { clear. induction n as [|n IH]; [reflexivity|].
      cbn [pad_loop written_on Z.eqb]. rewrite IH. reflexivity. }
    rewrite H0. reflexivity.
  - cbn [written_on app Z.eqb Pos.eqb]. rewrite pad_loop_written.
    unfold LCD_COLS in *. lia.
  - cbn [app]. intros [H|[H|[H|[H|H]]]]; try discriminate H.
    set (n := Z.to_nat _) in H. clearbody n.
    induction n as [|n IH]; [exact H|].
    cbn in H. destruct H as [H|H]; [discriminate H | now apply IH].
Qed.

Lemma showIdle_overwrites_rows_witness :
  let d := {| lcd := true; lcdAddress := 0x27; initialized := true |} in
  written_on 1 0 (showIdle (Some "07:15:42") d) = 16.
Proof.
  intros d.
  destruct (showIdle_overwrites_rows (Some "07:15:42") d eq_refl) as (_ & H & _).
  exact H.
Defined.

(** X23. [centerText] always yields exactly [width] characters.  A text that
    fits is kept whole between blanks, the blanks on its left being half of
    the room (rounded down) and those on its right the rest; a longer text
    is cut to its first [width] characters. *)
Theorem centerText_width :
  forall (text : string) (width : Z),
    0 <= width ->
    let len := Z.of_nat (String.length text) in
    Z.of_nat (String.length (centerText text width)) = width
    /\ (len <= width ->
        centerText text width
        = (string_of_list_ascii (repeat " "%char (Z.to_nat ((width - len) / 2)))
           ++ text
           ++ string_of_list_ascii
                (repeat " "%char (Z.to_nat (width - len - (width - len) / 2))))%string)
    /\ (width < len ->
        centerText text width = substring 0 (Z.to_nat width) text).
Proof.
  intros text width Hw len. subst len.
  unfold centerText, strncpy_at.
  set (len := Z.of_nat (String.length text)).
  assert (Hlen : 0 <= len) by (subst len; lia).
  assert (Hfirst : forall n, string_of_list_ascii (firstn n (list_ascii_of_string text))
                             = substring 0 n text).
  { clear. intros n. revert text. induction n as [|n IH]; intros text.
    - now rewrite substring_0_0.
    - destruct text as [|c text]; cbn; [reflexivity | now rewrite IH]. }
  assert (Hsk : forall a n, skipn a (repeat " "%char n) = repeat " "%char (n - a)).
  { clear. induction a as [|a IH]; intros n.
    - now rewrite Nat.sub_0_r.
    - destruct n as [|n]; [reflexivity | cbn; apply IH]. }
  assert (Hfi : forall a n, (a <= n)%nat ->
                            firstn a (repeat " "%char n) = repeat " "%char a).
  { clear. induction a as [|a IH]; intros n H; [reflexivity|].
    destruct n as [|n]; [lia|]. cbn. rewrite IH by lia. reflexivity. }
  destruct (len >? width) eqn:E.
  - rewrite Z.gtb_ltb in E. apply Z.ltb_lt in E.
    assert (Hq : Z.quot (width - len) 2 <= 0).
    { apply Z.quot_le_upper_bound; lia. }
    assert (Hp : (if Z.quot (width - len) 2 <? 0 then 0 else Z.quot (width - len) 2) = 0).
    { destruct (Z.quot (width - len) 2 <? 0) eqn:Eq; [reflexivity|].
      apply Z.ltb_ge in Eq. lia. }
    rewrite Hp. cbn [Z.to_nat firstn app Nat.add].
    rewrite Hsk, Nat.sub_diag. cbn [repeat]. rewrite app_nil_r, Hfirst.
    repeat split; try lia.
    rewrite length_substring_0. subst len. lia.
  - rewrite Z.gtb_ltb in E. apply Z.ltb_ge in E.
    assert (Hq : Z.quot (width - len) 2 = (width - len) / 2).
    { apply Z.quot_div_nonneg; lia. }
    assert (Hd : 0 <= (width - len) / 2 <= width - len).
    { split; [apply Z.div_pos; lia|]. apply Z.div_le_upper_bound; lia. }
    rewrite Hq.
    replace ((width - len) / 2 <? 0) with false
      by (symmetry; apply Z.ltb_ge; lia).
    rewrite Hfi by lia. rewrite Hsk.
    rewrite !string_of_list_ascii_app, Hfirst.
    rewrite (substring_0_all (Z.to_nat len) text) by (subst len; lia).
    replace (Z.to_nat width - (Z.to_nat ((width - len) / 2) + Z.to_nat len))%nat
      with (Z.to_nat (width - len - (width - len) / 2)) by lia.
    repeat split; try lia.
    rewrite !length_append, !length_string_of_list_ascii, !repeat_length.
    subst len. lia.
Qed.

Lemma centerText_width_witness :
  centerText "Alice" 16 = "     Alice      "
  /\ centerText "Muhammad Al-Fatih Ramadhan" 16 = "Muhammad Al-Fati".
Proof.
  assert (H0 : 0 <= 16) by lia.
  destruct (centerText_width "Alice" 16 H0) as (_ & Hfit & _).
  destruct (centerText_width "Muhammad Al-Fatih Ramadhan" 16 H0) as (_ & _ & Hcut).
  split.
  - apply Hfit. cbn. lia.
  - apply Hcut. cbn. lia.
Defined.

End DisplayManagerFacts.

(** ** The buzzer *)

Module BuzzerManagerFacts.
Import Arduino ArduinoFacts BuzzerManager.

Lemma total_delay_app (e1 e2 : list Event) :
  total_delay (e1 ++ e2) = total_delay e1 + total_delay e2.
Proof.
  induction e1 as [|[h|ms] e1 IH]; cbn; [reflexivity | exact IH | rewrite IH; lia].
Qed.

(** After an event list that leaves the pin low, what follows is observed
    as if it came first. *)
Lemma beep_then (duration : Z) (rest : list Event) (high : bool) :
  sounding_time high (beep duration ++ rest)
  = to_uint32 duration + sounding_time false rest
  /\ final_level high (beep duration ++ rest) = final_level false rest
  /\ pulses false (beep duration ++ rest) = S (pulses false rest).
Proof. cbn. repeat split; lia. Qed.

Lemma beepPattern_loop_spec (count onTime offTime : Z) (fuel : nat) :
  forall i : Z,
    0 <= i ->
    i + Z.of_nat fuel = count ->
    let events := beepPattern_loop fuel i count onTime offTime in
    total_delay events
    = Z.of_nat fuel * to_uint32 onTime
      + (if (fuel =? 0)%nat then 0 else (Z.of_nat fuel - 1) * to_uint32 offTime)
    /\ sounding_time false events = Z.of_nat fuel * to_uint32 onTime
    /\ final_level false events = false
    /\ pulses false events = fuel.
Proof.
  induction fuel as [|fuel IH]; intros i Hi Hc; [repeat split|].
  cbv zeta. cbn [beepPattern_loop].
  destruct (IH (i + 1)) as (Ht & Hs & Hf & Hp); [lia | lia |].
  rewrite !total_delay_app.
  destruct (i <? count - 1) eqn:E.
  - apply Z.ltb_lt in E.
    destruct (beep_then onTime
                (([Delay (to_uint32 offTime)]
                  ++ beepPattern_loop fuel (i + 1) count onTime offTime)%list) false)
      as (Bs & Bf & Bp).
    rewrite Bs, Bf, Bp. cbn [app sounding_time final_level pulses total_delay beep].
    rewrite Ht, Hs, Hf, Hp.
    destruct fuel as [|fuel]; [lia|].
    cbn [Nat.eqb]. repeat split; lia.
  - apply Z.ltb_ge in E.
    assert (fuel = 0%nat) by lia. subst fuel.
    cbn [beepPattern_loop app total_delay sounding_time final_level pulses
         beep Nat.eqb negb andb].
    change (Z.of_nat 1) with 1.
    repeat split; lia.
Qed.

(** X24. [beepPattern count onTime offTime] sounds the buzzer [count] times
    for [onTime] ms each with [offTime] ms of silence between two beeps and
    none after the last: it blocks for
    [count * onTime + (count - 1) * offTime] ms, the pin is high for
    [count * onTime] ms of these, and the pin is left low.  With a count of
    zero or less nothing is written to the pin. *)
Theorem beepPattern_timing :
  forall count onTime offTime : Z,
    0 <= onTime < ULONG_MODULUS ->
    0 <= offTime < ULONG_MODULUS ->
    (count <= 0 -> beepPattern count onTime offTime = [])
    /\ (1 <= count ->
        total_delay (beepPattern count onTime offTime)
        = count * onTime + (count - 1) * offTime
        /\ sounding_time false (beepPattern count onTime offTime) = count * onTime
        /\ final_level false (beepPattern count onTime offTime) = false
        /\ pulses false (beepPattern count onTime offTime) = Z.to_nat count).
Proof.
  intros count onTime offTime Hon Hoff. unfold beepPattern.
  split.
  - intros H. replace (Z.to_nat count) with 0%nat by lia. reflexivity.
  - intros H.
    destruct (beepPattern_loop_spec count onTime offTime (Z.to_nat count) 0)
      as (Ht & Hs & Hf & Hp); [lia | lia |].
    rewrite Ht, Hs, Hf, Hp.
    rewrite !to_uint32_small by assumption.
    replace (Z.to_nat count =? 0)%nat with false
      by (symmetry; apply Nat.eqb_neq; lia).
    repeat split; lia.
Qed.

Lemma beepPattern_timing_witness :
  total_delay beepError = 500
  /\ sounding_time false beepError = 300
  /\ total_delay beepNetworkError = 1200
  /\ final_level false beepNetworkError = false.
Proof.
  assert (H100 : 0 <= 100 < ULONG_MODULUS) by (unfold ULONG_MODULUS; lia).
  assert (H200 : 0 <= 200 < ULONG_MODULUS) by (unfold ULONG_MODULUS; lia).
  assert (H500 : 0 <= 500 < ULONG_MODULUS) by (unfold ULONG_MODULUS; lia).
  destruct (beepPattern_timing 3 100 100 H100 H100) as (_ & He).
  destruct (beepPattern_timing 2 500 200 H500 H200) as (_ & Hn).
  destruct He as (He1 & He2 & _); [lia|].
  destruct Hn as (Hn1 & _ & Hn3 & _); [lia|].
  unfold beepError, beepNetworkError.
  rewrite He1, He2, Hn1, Hn3. repeat split.
Defined.

End BuzzerManagerFacts.

(** ** The clock *)

Module TimeManagerFacts.
Import Arduino ArduinoFacts ArduinoString ArduinoStringFacts TimeManager.

Lemma forceSync_synced now ok tm :
  synced tm = true -> synced (snd (forceSync now ok tm)) = true.
Proof.
  intros H. unfold forceSync.
  destruct (negb (timeClient tm)); [exact H|].
  destruct ok; [reflexivity | exact H].
Qed.

Lemma run_call_synced call tm :
  synced tm = true -> synced (run_call call tm) = true.
Proof.
  intros H. destruct call; cbn [run_call].
  - unfold begin. now apply forceSync_synced.
  - unfold update. destruct (negb (timeClient tm)); [exact H|].
    destruct (_ && _); cbn [snd]; [now apply forceSync_synced | exact H].
  - now apply forceSync_synced.
Qed.

(** X25. Once the clock has synchronised it stays synchronised: no run of
    [begin], [update] and [forceSync] calls, however the NTP server answers,
    clears the flag.  A failed synchronisation changes nothing at all. *)
Theorem synced_is_kept :
  forall (calls : list Call) (tm : t),
    synced tm = true ->
    isSynced (run_calls calls tm) = true
    /\ (forall now : Z, forceSync now false tm = (false, tm)).
Proof.
  intros calls tm H. split.
  - revert tm H. induction calls as [|call calls IH]; intros tm H; [exact H|].
    unfold run_calls in *. cbn [fold_left]. apply IH.
    now apply run_call_synced.
  - intros now. unfold forceSync. destruct (negb (timeClient tm)); reflexivity.
Qed.

Lemma synced_is_kept_witness :
  isSynced
    (run_calls [CallUpdate 4000000 4000001 false; CallForceSync 4000500 false]
       (begin 1000 true new)) = true.
Proof.
  destruct (synced_is_kept
              [CallUpdate 4000000 4000001 false; CallForceSync 4000500 false]
              (begin 1000 true new) eq_refl) as (H & _).
  exact H.
Defined.

(** X26. [update] never makes the first synchronisation of the manager.  On
    a manager that has a client but has not synchronised yet, [update] asks
    the NTP client for its own [update()] and for nothing else, never for
    [forceUpdate()], and writes neither the flag nor the time of the last
    synchronisation.  So over any run of [update] calls the manager stays as
    it was: [isSynced] remains false and [getFormattedDate] keeps giving its
    placeholder, whatever the client answers and whatever time it has
    obtained by itself.  Without a client, [update] asks nothing at all. *)
Theorem update_never_first_sync :
  forall (calls : list Call) (tm : t),
    synced tm = false ->
    forallb is_update calls = true ->
    run_calls calls tm = tm
    /\ isSynced (run_calls calls tm) = false
    /\ (forall (now now' : Z) (forceUpdate : bool),
          update now now' forceUpdate tm
          = ((if timeClient tm then [NtpUpdate] else []), tm))
    /\ (forall (gmtime : Z -> tm_struct) (c : Clock),
          getFormattedDate gmtime c (run_calls calls tm) = "--/--/----").
Proof.
  intros calls tm Hs Hu.
  assert (Hup : forall now now' forceUpdate,
             update now now' forceUpdate tm
             = ((if timeClient tm then [NtpUpdate] else []), tm)).
  { intros now now' forceUpdate. unfold update. rewrite Hs. cbn [andb].
    destruct (timeClient tm); reflexivity. }
  assert (Hrun : run_calls calls tm = tm).
  { clear Hs. induction calls as [|call calls IH]; [reflexivity|].
    cbn in Hu. apply andb_true_iff in Hu. destruct Hu as [Hc Hcs].
    destruct call; try discriminate Hc.
    unfold run_calls in *. cbn [fold_left run_call].
    rewrite Hup. cbn [snd]. now apply IH. }
  rewrite Hrun. repeat split.
  - exact Hs.
  - exact Hup.
  - intros gmtime c. unfold getFormattedDate. rewrite Hs.
    cbn [negb]. rewrite orb_true_r. reflexivity.
Qed.

Lemma update_never_first_sync_witness :
  let tm := begin 1000 false new in
  isSynced
    (run_calls [CallUpdate 4000000 4000001 true; CallUpdate 8000000 8000001 true]
       tm) = false
  /\ update 4000000 4000001 true tm = ([NtpUpdate], tm).
Proof.
  intros tm.
  destruct (update_never_first_sync
              [CallUpdate 4000000 4000001 true; CallUpdate 8000000 8000001 true]
              tm eq_refl eq_refl) as (_ & Hflag & Hreq & _).
  split; [exact Hflag | exact (Hreq 4000000 4000001 true)].
Defined.

Lemma padZero_two_digits (n : Z) :
  0 <= n < 100 -> String.length (padZero n) = 2%nat.
Proof.
  intros H.
  assert (Hall : forallb (fun k => (String.length (padZero (Z.of_nat k)) =? 2)%nat)
                   (seq 0 100) = true) by (vm_compute; reflexivity).
  rewrite forallb_forall in Hall.
  specialize (Hall (Z.to_nat n)).
  rewrite Z2Nat.id in Hall by lia.
  apply Nat.eqb_eq, Hall, in_seq. lia.
Qed.

(** X27. The time text has the fixed width of its placeholder: with hours,
    minutes and seconds in their ranges, [getFormattedTime] is eight
    characters long, two digits for each of the three fields and a colon
    after the first two, like the text "--:--:--" shown without a client. *)
Theorem getFormattedTime_width :
  forall (c : Clock) (tm : t),
    0 <= hours c < 24 ->
    0 <= minutes c < 60 ->
    0 <= seconds c < 60 ->
    String.length (getFormattedTime c tm) = 8%nat
    /\ (timeClient tm = true ->
        exists hh mm ss : string,
          getFormattedTime c tm = (hh ++ ":" ++ mm ++ ":" ++ ss)%string
          /\ String.length hh = 2%nat /\ String.length mm = 2%nat
          /\ String.length ss = 2%nat)
    /\ (timeClient tm = false -> getFormattedTime c tm = "--:--:--").
Proof.
  intros c tm Hh Hm Hs.
  unfold getFormattedTime, getHours, getMinutes, getSeconds.
  destruct (timeClient tm); cbn [negb].
  - pose proof (padZero_two_digits (hours c)) as Lh.
    pose proof (padZero_two_digits (minutes c)) as Lm.
    pose proof (padZero_two_digits (seconds c)) as Ls.
    split; [|split; [|discriminate]].
    + rewrite !length_append. cbn [String.length].
      rewrite Lh, Lm, Ls by lia. reflexivity.
    + intros _. do 3 eexists. split; [reflexivity|].
      repeat split; [apply Lh | apply Lm | apply Ls]; lia.
  - repeat split. discriminate.
Qed.

Lemma getFormattedTime_width_witness :
  String.length
    (getFormattedTime (mkClock 7 5 9 1700000000) (begin 1000 true new)) = 8%nat.
Proof.
  assert (H7 : 0 <= 7 < 24) by lia.
  assert (H5 : 0 <= 5 < 60) by lia.
  assert (H9 : 0 <= 9 < 60) by lia.
  destruct (getFormattedTime_width (mkClock 7 5 9 1700000000)
              (begin 1000 true new) H7 H5 H9) as (H & _).
  exact H.
Defined.

End TimeManagerFacts.

(** ** The stored configuration *)

Module ConfigManagerFacts.
Import Arduino ArduinoFacts ArduinoString ArduinoStringFacts.
Import ArduinoJson ConfigManager.

Section Members.
Context {defaults : Defaults} {codec : Codec}.

Lemma updateConfiguredStatus_ok (c : Config) :
  well_sized c ->
  well_sized (updateConfiguredStatus c) /\ flag_matches (updateConfiguredStatus c).
Proof. intros H. split; [exact H | reflexivity]. Qed.

Ltac sized :=
  unfold well_sized in *; cbn [wifi_ssid wifi_password api_key server_url] in *;
  repeat split;
  try (apply strlcpy_length;
       unfold CONFIG_WIFI_SSID_MAX, CONFIG_WIFI_PASSWORD_MAX,
         CONFIG_API_KEY_MAX, CONFIG_SERVER_URL_MAX; lia);
  tauto.

Lemma run_call_config call cm fs :
  well_sized (config cm) ->
  well_sized (config (fst (run_call call (cm, fs))))
  /\ (is_load call = false ->
      flag_matches (config cm) ->
      flag_matches (config (fst (run_call call (cm, fs))))).
Proof.
  intros Hw. destruct call; cbn [run_call is_load fst].
  - unfold begin. destruct (negb (mounts fs)); cbn; split; auto.
  - split; [|discriminate].
    unfold load. destruct (negb (initialized cm)); [exact Hw|].
    destruct (file fs); [|exact Hw].
    destruct (negb (opens_r fs)); [exact Hw|].
    destruct (deserializeJson s); [|exact Hw].
    cbn [snd config]. sized.
  - split; auto.
  - unfold reset, setDefaults.
    destruct (file fs); [destruct (initialized _)|];
      cbn [fst config]; (split; [sized | reflexivity]).
  - unfold setWiFi. cbn [config]. split; [sized | reflexivity].
  - unfold setAPIKey. cbn [config]. split; [sized | reflexivity].
  - unfold setServerURL. cbn [config]. split; [sized | reflexivity].
Qed.

Lemma new_config_ok : well_sized (config new) /\ flag_matches (config new).
Proof. unfold new, setDefaults. cbn [config]. split; [sized | reflexivity]. Qed.

(** X28. The invariants of the configuration.  Over any run of calls on a
    new manager every stored text fits its array, terminator included; and
    as long as the run does not [load], the flag is true exactly when the
    network name, the key and the server URL are all set.  The password
    plays no part in it, and a setter given a text that fits stores it
    whole. *)
Theorem config_invariants :
  forall (calls : list Call) (fs : LittleFS),
    well_sized (config (fst (run_calls calls (new, fs))))
    /\ (forallb (fun call => negb (is_load call)) calls = true ->
        let c := config (fst (run_calls calls (new, fs))) in
        isConfigured (fst (run_calls calls (new, fs)))
        = nonempty (wifi_ssid c) && nonempty (api_key c) && nonempty (server_url c))
    /\ (forall (key : string) (cm : t),
          (String.length key < CONFIG_API_KEY_MAX)%nat ->
          api_key (config (setAPIKey key cm)) = key).
Proof.
  intros calls fs.
  assert (H : forall st : t * LittleFS,
             well_sized (config (fst st)) ->
             well_sized (config (fst (run_calls calls st)))
             /\ (forallb (fun call => negb (is_load call)) calls = true ->
                 flag_matches (config (fst st)) ->
                 flag_matches (config (fst (run_calls calls st))))).
  { induction calls as [|call calls IH]; intros st Hw; [split; auto|].
    unfold run_calls in *. cbn [fold_left forallb].
    destruct st as [cm fs0].
    destruct (run_call_config call cm fs0 Hw) as (Hw' & Hf').
    destruct (IH (run_call call (cm, fs0)) Hw') as (Hw'' & Hf'').
    split; [exact Hw''|].
    intros Hall Hflag. apply andb_true_iff in Hall. destruct Hall as [Hc Hcs].
    apply Hf''; [exact Hcs|]. apply Hf'; [|exact Hflag].
    now apply negb_true_iff. }
  destruct new_config_ok as (Hw0 & Hf0).
  destruct (H (new, fs) Hw0) as (Hw & Hf).
  split; [exact Hw|]. split.
  - intros Hall. apply Hf; assumption.
  - intros key cm Hk. unfold setAPIKey. cbn [config api_key].
    now apply strlcpy_fits.
Qed.

Lemma config_doc_members (c : Config) :
  getMember "wifi_ssid" (config_doc c) = JString (wifi_ssid c)
  /\ getMember "wifi_password" (config_doc c) = JString (wifi_password c)
  /\ getMember "api_key" (config_doc c) = JString (api_key c)
  /\ getMember "server_url" (config_doc c) = JString (server_url c)
  /\ getMember "configured" (config_doc c) = JBool (configured c).
Proof. repeat split. Qed.

(** X29. What [save] writes, [load] reads back: on an initialised manager
    whose texts fit their arrays, with a file system that opens the file and
    stores the bytes and a codec that reads the saved document back, [save]
    succeeds and a following [load] succeeds and restores exactly the saved
    configuration, whatever the manager held in between. *)
Theorem save_load_round_trip :
  forall (cm cm' : t) (fs : LittleFS),
    initialized cm = true ->
    initialized cm' = true ->
    opens_w fs = true -> stores fs = true -> opens_r fs = true ->
    well_sized (config cm) ->
    serializeJson (config_doc (config cm)) <> "" ->
    deserializeJson (serializeJson (config_doc (config cm)))
    = Some (config_doc (config cm)) ->
    fst (save cm fs) = true
    /\ file (snd (save cm fs)) = Some (serializeJson (config_doc (config cm)))
    /\ load (snd (save cm fs)) cm'
       = (true, {| config := config cm; initialized := true |}).
Proof.
  intros cm cm' fs Hi Hi' Hw Hs Hr Hsize Htext Hcodec.
  unfold save. rewrite Hi, Hw, Hs. cbn [negb].
  destruct (serializeJson (config_doc (config cm))) as [|ch text] eqn:E;
    [now elim Htext|].
  cbn [String.length Nat.eqb fst snd with_file file].
  split; [reflexivity|]. split; [reflexivity|].
  unfold load. rewrite Hi'. cbn [negb file with_file opens_r]. rewrite Hr.
  cbn [negb]. rewrite Hcodec.
  destruct Hsize as (H1 & H2 & H3 & H4).
  destruct (config_doc_members (config cm)) as (M1 & M2 & M3 & M4 & M5).
  rewrite M1, M2, M3, M4, M5. cbn [or_cstr or_bool].
  rewrite !strlcpy_fits by assumption.
  destruct (config cm); reflexivity.
Qed.

(** X30. When storage fails.  A manager that was never initialised neither
    reads nor writes: [load] and [save] fail and change nothing, and [reset]
    restores the defaults in memory but leaves the stored file.  On an
    initialised manager [reset] removes the file, so the next [load] fails
    and the defaults stay; and a [save] whose bytes are not stored fails
    after the file was opened for writing, which leaves it empty. *)
Theorem storage_failures :
  forall (cm : t) (fs : LittleFS),
    (initialized cm = false ->
     load fs cm = (false, cm)
     /\ save cm fs = (false, fs)
     /\ snd (reset cm fs) = fs)
    /\ (initialized cm = true ->
        file (snd (reset cm fs)) = None
        /\ config (fst (reset cm fs)) = config new
        /\ load (snd (reset cm fs)) (fst (reset cm fs))
           = (false, fst (reset cm fs)))
    /\ (initialized cm = true -> opens_w fs = true -> stores fs = false ->
        fst (save cm fs) = false /\ file (snd (save cm fs)) = Some "").
Proof.
  intros cm fs. split; [|split].
  - intros Hi. unfold load, save, reset, setDefaults. rewrite Hi. cbn.
    repeat split. destruct (file fs); reflexivity.
  - intros Hi. unfold reset, new, setDefaults. cbv zeta. cbn [initialized].
    rewrite Hi.
    destruct (file fs) eqn:E; cbn [fst snd file with_file config];
      unfold load; cbn [initialized negb file with_file];
      rewrite ?E; repeat split.
  - intros Hi Hw Hs. unfold save. rewrite Hi, Hw, Hs. cbn. split; reflexivity.
Qed.

End Members.

Lemma config_invariants_witness :
  let cm := fst (@run_calls example_defaults (APIClient.table_codec [])
                   [CallBegin; CallSetWiFi "" "secret"; CallSave]
                   (@new example_defaults, example_fs)) in
  isConfigured cm = false
  /\ api_key (config (setAPIKey "key-2" cm)) = "key-2".
Proof.
  intros cm.
  destruct (@config_invariants example_defaults (APIClient.table_codec [])
              [CallBegin; CallSetWiFi "" "secret"; CallSave] example_fs)
    as (_ & Hflag & Hkey).
  split.
  - unfold cm. rewrite Hflag; reflexivity.
  - apply Hkey. unfold CONFIG_API_KEY_MAX. cbn [String.length]. lia.
Defined.

Lemma save_load_round_trip_witness :
  let cm := snd (begin example_fs (@new example_defaults)) in
  let codec := APIClient.table_codec [("{}", config_doc (config cm))] in
  @load codec (snd (@save codec cm example_fs)) (setWiFi "other" "none" cm)
  = (true, {| config := config cm; initialized := true |}).
Proof.
  intros cm codec.
  apply (@save_load_round_trip codec cm (setWiFi "other" "none" cm) example_fs);
    try reflexivity.
  - unfold well_sized, CONFIG_WIFI_SSID_MAX, CONFIG_WIFI_PASSWORD_MAX,
      CONFIG_API_KEY_MAX, CONFIG_SERVER_URL_MAX.
    vm_compute. repeat split; lia.
  - discriminate.
Defined.

Lemma storage_failures_witness :
  let codec := APIClient.table_codec [] in
  let fs := with_file (Some "stored") example_fs in
  snd (@reset example_defaults (@new example_defaults) fs) = fs
  /\ file (snd (@reset example_defaults
                  (snd (begin fs (@new example_defaults))) fs)) = None.
Proof.
  intros codec fs.
  destruct (@storage_failures example_defaults codec (@new example_defaults) fs)
    as (Hoff & _ & _).
  destruct (@storage_failures example_defaults codec
              (snd (begin fs (@new example_defaults))) fs)
    as (_ & Hon & _).
  split.
  - apply Hoff. reflexivity.
  - apply Hon. reflexivity.
Defined.

End ConfigManagerFacts.
